(** * rastertopm110: the CUPS raster filter for Phomemo M110/M220 printers

    A shallow embedding of [cups/filter/rastertopm110.c] and the properties
    its specification states about it.

    Conventions of the embedding.
    - A C [unsigned char] is a [Z] in [0, 256); [int] and [unsigned] are
      [Z] with their 32-bit wrap-around written out ([wrap_i32],
      [wrap_u32]); [/] and [%] on [int] are [Z.quot] and [Z.rem].
    - A buffer is a [list Z]; a read or write outside it is undefined
      behaviour, which the embedding renders as [None].
    - What the program does to the outside world is a chronological list
      of [event]s; the bytes on standard output are [stdout_of] of it. *)

From stdpp Require Import base numbers list option strings.

Local Open Scope Z_scope.

(** ** Machine integers *)

Definition INT_MAX : Z := 2147483647.

(** Conversion to [unsigned] (32 bits). *)
Definition wrap_u32 (z : Z) : Z := z mod 2 ^ 32.

(** Conversion to [int] (32 bits, two's complement). *)
Definition wrap_i32 (z : Z) : Z := (z + 2 ^ 31) mod 2 ^ 32 - 2 ^ 31.

(** Conversion to [unsigned char]. *)
Definition to_uchar (z : Z) : Z := z mod 2 ^ 8.

(** ** Buffers *)

(** The size of a buffer, in bytes. *)
Definition blen (buf : list Z) : Z := Z.of_nat (length buf).

(** [buf[i]] as an rvalue. *)
Definition load (buf : list Z) (i : Z) : option Z :=
  if bool_decide (0 ≤ i) then buf !! Z.to_nat i else None.

(** [buf[i] = v]. *)
Definition store (buf : list Z) (i : Z) (v : Z) : option (list Z) :=
  if bool_decide (0 ≤ i < blen buf) then Some (<[Z.to_nat i := v]> buf)
  else None.

(** [memset(buf, c, n)]. *)
Definition memset (buf : list Z) (c : Z) (n : Z) : option (list Z) :=
  if bool_decide (0 ≤ n ≤ blen buf)
  then Some (replicate (Z.to_nat n) c ++ drop (Z.to_nat n) buf)
  else None.

(** [memcpy(dst + off, src, n)]. *)
Definition memcpy (dst : list Z) (off : Z) (src : list Z) (n : Z)
  : option (list Z) :=
  if bool_decide (0 ≤ off ∧ 0 ≤ n ∧ off + n ≤ blen dst ∧ n ≤ blen src)
  then Some (take (Z.to_nat off) dst ++ take (Z.to_nat n) src
             ++ drop (Z.to_nat (off + n)) dst)
  else None.

(** A counted loop [for (i = start; ...; i++)] running [n] times over a
    state [S]; the body may hit undefined behaviour. *)
Fixpoint for_loop {S : Type} (n : nat) (i : Z) (body : Z → S → option S)
    (s : S) : option S :=
  match n with
  | O => Some s
  | S n' => s' ← body i s; for_loop n' (i + 1) body s'
  end.

(** ** The thresholder: [convert_line_to_1bit] *)

(** The body of the pixel loop, at pixel [x]. *)
Definition convert_pixel (src : list Z) (x : Z) (dst : list Z)
  : option (list Z) :=
  let byte_idx := x ÷ 8 in
  let bit_idx := 7 - Z.rem x 8 in
  s ← load src x;
  if s <? 128 then
    d ← load dst byte_idx;
    store dst byte_idx (to_uchar (Z.lor d (Z.shiftl 1 bit_idx)))
  else Some dst.

(** [for (x = 0; x < width; x++)] runs [width] times, not at all when
    [width] is negative. *)
Definition convert_line_to_1bit (src dst : list Z) (width : Z)
  : option (list Z) :=
  let width_bytes := wrap_i32 (width + 7) ÷ 8 in
  dst0 ← memset dst 0 width_bytes;
  for_loop (Z.to_nat width) 0 (convert_pixel src) dst0.

(** ** The page header and the raster reader

    [cups_page_header2_t], [cupsRasterOpen], [cupsRasterReadHeader2] and
    [cupsRasterReadPixels] belong to libcupsimage, an external library
    whose source is not in the repository; the filter only calls them.
    They are rendered here as the specification describes the reader
    (section 4.2): a stream is a sequence of pages, each a header
    followed by its pixel bytes. *)

(** Modelled from the spec: the page header of libcupsimage, reduced to
    the fields the filter reads, each of C type [unsigned]. *)
Record cups_page_header2_t := {
  cupsWidth : Z;
  cupsHeight : Z;
  cupsBitsPerPixel : Z;
  cupsColorSpace : Z;
  cupsBytesPerLine : Z;
  cupsMediaType : Z
}.

(** Modelled from the spec: one [<header><pixels>] record of the
    page-image container. A record whose pixel bytes are fewer than
    [cupsBytesPerLine * cupsHeight] is a page the stream cuts short. *)
Record page_record := {
  pg_header : cups_page_header2_t;
  pg_pixels : list Z
}.

(** Modelled from the spec: the state of the reader of libcupsimage. *)
Record cups_raster_t := {
  ras_pixels : list Z;          (* what is left of the current page *)
  ras_pages : list page_record  (* the pages after the current one *)
}.

(** Modelled from the spec: [read_header] of libcupsimage's reader. It
    advances to the next page and gives its header, or signals the end
    of the stream ([None], the C function returning 0). *)
Definition cupsRasterReadHeader2 (ras : cups_raster_t)
  : option (cups_page_header2_t * cups_raster_t) :=
  match ras_pages ras with
  | [] => None
  | p :: ps => Some (pg_header p,
                     {| ras_pixels := pg_pixels p; ras_pages := ps |})
  end.

(** Modelled from the spec: [read_row] of libcupsimage's reader. It
    fills exactly [len] bytes from the pixel payload of the current page
    and returns [len], or returns 0 when [len] is 0 or fewer than [len]
    bytes are left. The result is the call's return value, the buffer
    and the reader; the outer [option] is the undefined behaviour of a
    buffer shorter than [len]. *)
Definition cupsRasterReadPixels (ras : cups_raster_t) (buf : list Z) (len : Z)
  : option (Z * list Z * cups_raster_t) :=
  if bool_decide (0 < len ≤ blen (ras_pixels ras)) then
    buf' ← memcpy buf 0 (ras_pixels ras) len;
    Some (len, buf',
          {| ras_pixels := drop (Z.to_nat len) (ras_pixels ras);
             ras_pages := ras_pages ras |})
  else Some (0, buf, ras).

(** ** The process and its environment *)

(** Lines on standard error, one constructor per [fprintf]/[perror]
    with the values it prints; [ErrUsage prog] is the line whose text is
    [usage_text prog]. *)
Inductive diag :=
  | DbgStarting
  | DbgArgc (argc : Z)
  | ErrUsage (prog : string)
  | ErrOpenInput
  | ErrRasterOpen
  | DbgRasterOpened
  | DbgPage (page w h bpp cs mt : Z)
  | DbgEmptyPage
  | ErrAlloc
  | DbgReadError (y : Z)
  | DbgReadLines (y : Z)
  | DbgPageSent (page : Z)
  | DbgComplete (page : Z).

Inductive event :=
  | EStderr (d : diag)
  | EOpen (path : string) (fd : Z)
  | ERasterOpen (fd : Z) (ok : bool)
  | EReadHeader (ok : bool)
  | EReadPixels (len ret : Z)
  | EMalloc (size : Z) (ok : bool)
  | EFree
  | EStdout (bytes : list Z)
  | EFlush
  | ERasterClose.

(** The heap as the program meets it ([malloc] is the C library's): what the calls to [malloc] still to
    come return, in order, [None] for [NULL] and otherwise the bytes a
    fresh block happens to hold; once the list is used up [malloc]
    returns [NULL]. *)
Abbreviation heap := (list (option (nat → Z))).

Definition malloc (hp : heap) (size : Z) : option (list Z) * heap :=
  match hp with
  | [] => (None, [])
  | o :: hp' =>
      ((λ g : nat → Z, (λ i, to_uchar (g i)) <$> seq 0 (Z.to_nat size)) <$> o,
       hp')
  end.

Record env := {
  e_argv : list string;                           (* argc is its length *)
  e_open : string → Z;                            (* open(path, O_RDONLY) *)
  e_raster_open : Z → option cups_raster_t;       (* cupsRasterOpen(fd, READ) *)
  e_heap : heap
}.

(** The bytes written to standard output, in order. *)
Definition stdout_of (t : list event) : list Z :=
  t ≫= λ e, match e with EStdout bs => bs | _ => [] end.

(** The diagnostics written to standard error, in order. *)
Definition stderr_of (t : list event) : list diag :=
  t ≫= λ e, match e with EStderr d => [d] | _ => [] end.

(** Events on the input stream or the output stream. *)
Definition is_stream_io (e : event) : bool :=
  match e with
  | EOpen _ _ | ERasterOpen _ _ | EReadHeader _ | EReadPixels _ _
  | EStdout _ | EFlush | ERasterClose => true
  | EStderr _ | EMalloc _ _ | EFree => false
  end.

Definition newline : string := String (Ascii.ascii_of_nat 10) EmptyString.

(** The text of ["Usage: %s job user title copies options [file]\n"]. *)
Definition usage_text (prog : string) : string :=
  "Usage: " +:+ prog +:+ " job user title copies options [file]" +:+ newline.

Fixpoint count_newlines (s : string) : nat :=
  match s with
  | EmptyString => 0%nat
  | String c s' =>
      ((if Ascii.eqb c (Ascii.ascii_of_nat 10) then 1 else 0)
       + count_newlines s')%nat
  end.

(** [fwrite(data, 1, n, stdout)]: the bytes handed to the stream. *)
Definition fwrite (data : list Z) (n : Z) : option event :=
  if bool_decide (0 ≤ n ≤ blen data) then Some (EStdout (take (Z.to_nat n) data))
  else None.

(** ** The command emitter *)

Definition ESC : Z := 0x1b.
Definition GS : Z := 0x1d.

Definition send_header (media_type : Z) : list event :=
  [ EStdout [ESC; 0x4e; 0x0d; 5];
    EStdout [ESC; 0x4e; 0x04; 10];
    EStdout [0x1f; 0x11; to_uchar media_type] ].

Definition send_raster (data : list Z) (width height : Z)
  : option (list event) :=
  let width_bytes := wrap_i32 (width + 7) ÷ 8 in
  img ← fwrite data (wrap_i32 (width_bytes * height));
  Some [ EStdout [GS; 0x76; 0x30; 0];
         EStdout [to_uchar (Z.land width_bytes 0xff);
                  to_uchar (Z.land (Z.shiftr width_bytes 8) 0xff)];
         EStdout [to_uchar (Z.land height 0xff);
                  to_uchar (Z.land (Z.shiftr height 8) 0xff)];
         img ].

Definition send_footer : list event :=
  [ EStdout [0x1f; 0xf0; 0x05; 0x00];
    EStdout [0x1f; 0xf0; 0x03; 0x00] ].

(** ** The page assembler and [main] *)

(** The variables the row loop of [main] works on, and what it did. *)
Record rows := {
  r_y : Z;
  r_ras : cups_raster_t;
  r_line_in : list Z;
  r_line_out : list Z;
  r_page_data : list Z;
  r_log : list event
}.

(** [for (y = 0; y < header.cupsHeight; y++)], with [n] the number of
    rows still to go; [y] is compared as an [unsigned], so the loop ends
    after [cupsHeight] rows unless a read fails first. *)
Fixpoint read_rows (n : nat) (hdr : cups_page_header2_t) (width_bytes : Z)
    (st : rows) : option rows :=
  match n with
  | O => Some st
  | S n' =>
      let y := r_y st in
      '(ret, line_in, ras) ←
        cupsRasterReadPixels (r_ras st) (r_line_in st) (cupsBytesPerLine hdr);
      let log := r_log st ++ [EReadPixels (cupsBytesPerLine hdr) ret] in
      if ret =? 0 then
        Some {| r_y := y; r_ras := ras; r_line_in := line_in;
                r_line_out := r_line_out st;
                r_page_data := r_page_data st;
                r_log := log ++ [EStderr (DbgReadError y)] |}
      else
        line_out ←
          convert_line_to_1bit line_in (r_line_out st)
                               (wrap_i32 (cupsWidth hdr));
        page_data ←
          memcpy (r_page_data st) (wrap_i32 (y * width_bytes))
                 line_out width_bytes;
        read_rows n' hdr width_bytes
          {| r_y := wrap_i32 (y + 1); r_ras := ras; r_line_in := line_in;
             r_line_out := line_out; r_page_data := page_data;
             r_log := log |}
  end.

(** How one turn of the page loop ends: with the next turn, or with
    [return code] from [main]. *)
Inductive flow :=
  | Next (ras : cups_raster_t) (hp : heap)
  | Return (code : Z).

(** The body of [while (cupsRasterReadHeader2(ras, &header))], [page]
    already incremented. *)
Definition page_body (hdr : cups_page_header2_t) (ras : cups_raster_t)
    (hp : heap) (page : Z) : option (list event * flow) :=
  let dbg := [EStderr (DbgPage page (cupsWidth hdr) (cupsHeight hdr)
                         (cupsBitsPerPixel hdr) (cupsColorSpace hdr)
                         (cupsMediaType hdr))] in
  if bool_decide (cupsWidth hdr = 0 ∨ cupsHeight hdr = 0) then
    Some (dbg ++ [EStderr DbgEmptyPage], Next ras hp)
  else
    let width_bytes := wrap_u32 (cupsWidth hdr + 7) / 8 in
    let sz_in := cupsBytesPerLine hdr in
    let sz_out := width_bytes in
    let sz_page := wrap_u32 (width_bytes * cupsHeight hdr) in
    let '(line_in, hp1) := malloc hp sz_in in
    let '(line_out, hp2) := malloc hp1 sz_out in
    let '(page_data, hp3) := malloc hp2 sz_page in
    let log := dbg ++ [EMalloc sz_in (bool_decide (is_Some line_in));
                       EMalloc sz_out (bool_decide (is_Some line_out));
                       EMalloc sz_page (bool_decide (is_Some page_data))] in
    match line_in, line_out, page_data with
    | Some line_in, Some line_out, Some page_data =>
        st ← read_rows (Z.to_nat (cupsHeight hdr)) hdr width_bytes
               {| r_y := 0; r_ras := ras; r_line_in := line_in;
                  r_line_out := line_out; r_page_data := page_data;
                  r_log := [] |};
        let media_type :=
          if bool_decide (cupsMediaType hdr ≠ 0) then cupsMediaType hdr
          else 10 in
        raster ← send_raster (r_page_data st) (wrap_i32 (cupsWidth hdr))
                             (wrap_i32 (cupsHeight hdr));
        Some (log ++ r_log st ++ [EStderr (DbgReadLines (r_y st))]
                  ++ send_header (wrap_i32 media_type)
                  ++ raster
                  ++ send_footer
                  ++ [EFlush; EStderr (DbgPageSent page); EFree; EFree; EFree],
              Next (r_ras st) hp3)
    | _, _, _ => Some (log ++ [EStderr ErrAlloc], Return 1)
    end.

(** The page loop. [fuel] bounds the number of headers read; [main]
    passes one more than the number of pages of the stream, which
    [page_loop_run_pages] shows to be enough: [None] is then undefined
    behaviour in a page, never the fuel running out. *)
Fixpoint page_loop (fuel : nat) (ras : cups_raster_t) (hp : heap) (page : Z)
  : option (list event * Z) :=
  match fuel with
  | O => None
  | S fuel' =>
      match cupsRasterReadHeader2 ras with
      | None =>
          Some ([EReadHeader false; ERasterClose;
                 EStderr (DbgComplete page)], 0)
      | Some (hdr, ras1) =>
          let page := wrap_i32 (page + 1) in
          '(log, fl) ← page_body hdr ras1 hp page;
          match fl with
          | Return code => Some (EReadHeader true :: log, code)
          | Next ras2 hp2 =>
              '(log2, code) ← page_loop fuel' ras2 hp2 page;
              Some (EReadHeader true :: log ++ log2, code)
          end
      end
  end.

(** [main] from [ras = cupsRasterOpen(fd, CUPS_RASTER_READ)] on; [log]
    is what the process did before. *)
Definition main_raster (e : env) (log : list event) (fd : Z)
  : option (list event * Z) :=
  match e_raster_open e fd with
  | None => Some (log ++ [ERasterOpen fd false; EStderr ErrRasterOpen], 1)
  | Some ras =>
      '(log2, code) ←
        page_loop (S (length (ras_pages ras))) ras (e_heap e) 0;
      Some (log ++ [ERasterOpen fd true; EStderr DbgRasterOpened] ++ log2,
            code)
  end.

(** [main], from the argument vector and the environment to what the
    process did and its exit code. *)
Definition main (e : env) : option (list event * Z) :=
  let argc := Z.of_nat (length (e_argv e)) in
  let log0 := [EStderr DbgStarting; EStderr (DbgArgc argc)] in
  if bool_decide (argc < 6 ∨ argc > 7) then
    Some (log0 ++ [EStderr (ErrUsage (default "(null)" (e_argv e !! 0%nat)))],
          1)
  else if bool_decide (argc = 7) then
    let path := default "" (e_argv e !! 6%nat) in
    let fd := e_open e path in
    if bool_decide (fd < 0) then
      Some (log0 ++ [EOpen path fd; EStderr ErrOpenInput], 1)
    else main_raster e (log0 ++ [EOpen path fd]) fd
  else main_raster e log0 0.

(** ** The specification's side

    The definitions below follow the words of the specification, not the
    code: the output row of its data model, the three frames of its
    command emitter, and the conditions its error taxonomy names. The
    theorems compare them with the program above. *)

(** Stride: the length of a packed row, [ceil(width/8)]. *)
Definition stride (w : Z) : Z := (w + 7) / 8.

(** Whether pixel [x] of a row of [w] pixels burns: it is a pixel of the
    row and its sample is strictly below 128. *)
Definition spec_burn (w : Z) (r : list Z) (x : Z) : bool :=
  bool_decide (0 ≤ x < w)
  && from_option (λ s, bool_decide (s < 128)) false (r !! Z.to_nat x).

(** Output byte [i] of a row: pixel [8 i + k] sits in bit [7 - k]. *)
Definition spec_output_byte (w : Z) (r : list Z) (i : Z) : Z :=
  foldr (λ k acc, Z.lor (Z.shiftl (Z.b2z (spec_burn w r (8 * i + k))) (7 - k))
                        acc)
        0 [0; 1; 2; 3; 4; 5; 6; 7].

(** The Output Row of an input row: [ceil(w/8)] bytes, MSB first. *)
Definition spec_output_row (w : Z) (r : list Z) : list Z :=
  (λ i, spec_output_byte w r (Z.of_nat i)) <$> seq 0 (Z.to_nat (stride w)).

(** Input row [y] of a page: [bpl] bytes of its pixel payload. *)
Definition input_row (bpl : Z) (pixels : list Z) (y : nat) : list Z :=
  take (Z.to_nat bpl) (drop (y * Z.to_nat bpl) pixels).

(** The Page Bitmap: the output rows of the first [n] input rows. *)
Definition spec_bitmap (w bpl : Z) (pixels : list Z) (n : nat) : list Z :=
  seq 0 n ≫= λ y, spec_output_row w (input_row bpl pixels y).

(** A 16-bit little-endian field. *)
Definition le16 (n : Z) : list Z := [n mod 256; n / 256 mod 256].

Definition spec_init_frame (media_type : Z) : list Z :=
  [0x1B; 0x4E; 0x0D; 0x05] ++ [0x1B; 0x4E; 0x04; 0x0A]
  ++ [0x1F; 0x11; if bool_decide (media_type ≠ 0) then media_type else 0x0A].

Definition spec_raster_frame (stride rows : Z) (payload : list Z) : list Z :=
  [0x1D; 0x76; 0x30; 0x00] ++ le16 stride ++ le16 rows ++ payload.

Definition spec_footer_frame : list Z :=
  [0x1F; 0xF0; 0x05; 0x00] ++ [0x1F; 0xF0; 0x03; 0x00].

(** An empty page: [width == 0] or [height == 0]. *)
Definition page_empty (hdr : cups_page_header2_t) : Prop :=
  cupsWidth hdr = 0 ∨ cupsHeight hdr = 0.

(** A page the filter is written for: one byte per pixel in rows of
    [cupsBytesPerLine] bytes, and a geometry whose sizes the C arithmetic
    of the filter represents ([width + 7] and [stride * height] as
    [int]). *)
Definition page_sane (hdr : cups_page_header2_t) : Prop :=
  0 ≤ cupsWidth hdr ∧ 0 ≤ cupsHeight hdr
  ∧ (page_empty hdr
     ∨ cupsWidth hdr ≤ cupsBytesPerLine hdr
       ∧ cupsWidth hdr + 7 ≤ INT_MAX
       ∧ stride (cupsWidth hdr) * cupsHeight hdr ≤ INT_MAX).

(** A page all of whose rows are in the stream. *)
Definition page_complete (p : page_record) : Prop :=
  cupsBytesPerLine (pg_header p) * cupsHeight (pg_header p)
  ≤ blen (pg_pixels p).

(** The bytes the specification gives a page: nothing for an empty one,
    else the three frames. *)
Definition spec_page_bytes (p : page_record) : list Z :=
  let hdr := pg_header p in
  if bool_decide (page_empty hdr) then []
  else spec_init_frame (cupsMediaType hdr)
       ++ spec_raster_frame (stride (cupsWidth hdr)) (cupsHeight hdr)
            (spec_bitmap (cupsWidth hdr) (cupsBytesPerLine hdr) (pg_pixels p)
                         (Z.to_nat (cupsHeight hdr)))
       ++ spec_footer_frame.

(** What an observer of the process sees: the bytes on standard output
    and the exit code. *)
Definition observable (r : option (list event * Z)) : option (list Z * Z) :=
  (λ '(t, code), (stdout_of t, code)) <$> r.

Definition argc (e : env) : Z := Z.of_nat (length (e_argv e)).

(** The descriptor [main] opens the raster stream on. *)
Definition input_fd (e : env) : Z :=
  if bool_decide (argc e = 7) then e_open e (default "" (e_argv e !! 6%nat))
  else 0.

(** The four fatal errors of the specification. *)
Definition argument_error (e : env) : Prop := argc e < 6 ∨ argc e > 7.

Definition input_open_error (e : env) : Prop :=
  argc e = 7 ∧ input_fd e < 0.

Definition raster_open_error (e : env) : Prop :=
  ¬ argument_error e ∧ ¬ input_open_error e
  ∧ e_raster_open e (input_fd e) = None.

Definition allocation_failure (t : list event) : Prop :=
  ∃ size, EMalloc size false ∈ t.

(** What the call to [malloc] number [i] from now returns. *)
Definition heap_at (hp : heap) (i : nat) : option (nat → Z) :=
  default None (hp !! i).

(** The heap after [n] calls to [malloc]. *)
Definition heap_after (n : nat) (hp : heap) : heap := drop n hp.

Global Arguments heap_after : simpl never.

(** The same environment with the empty pages taken out of every
    stream. *)
Definition without_empty_pages (e : env) : env :=
  {| e_argv := e_argv e;
     e_open := e_open e;
     e_raster_open := λ fd,
       (λ ras, {| ras_pixels := ras_pixels ras;
                  ras_pages :=
                    filter (λ p, ¬ page_empty (pg_header p)) (ras_pages ras) |})
       <$> e_raster_open e fd;
     e_heap := e_heap e |}.

(** ** Invariants used in the proofs *)

(** The bits of an output row after the first [n] pixels were handled. *)
Definition row_bits (n : Z) (r out : list Z) : Prop :=
  ∀ (i : nat) (b j : Z), out !! i = Some b → 0 ≤ j →
    Z.testbit b j = bool_decide (j < 8) && spec_burn n r (8 * Z.of_nat i + (7 - j)).

(** The sizes of the three page buffers. *)
Definition rows_sized (hdr : cups_page_header2_t) (st : rows) : Prop :=
  blen (r_line_in st) = cupsBytesPerLine hdr
  ∧ blen (r_line_out st) = stride (cupsWidth hdr)
  ∧ blen (r_page_data st) = stride (cupsWidth hdr) * cupsHeight hdr.

(** A page that is not empty and is sane. *)
Definition page_printable (hdr : cups_page_header2_t) : Prop :=
  0 < cupsWidth hdr ∧ 0 < cupsHeight hdr
  ∧ cupsWidth hdr ≤ cupsBytesPerLine hdr
  ∧ cupsWidth hdr + 7 ≤ INT_MAX
  ∧ stride (cupsWidth hdr) * cupsHeight hdr ≤ INT_MAX.

(** What the row loop may leave in the log. *)
Definition row_event (e : event) : Prop :=
  match e with
  | EReadPixels _ _ | EStderr (DbgReadError _) => True
  | _ => False
  end.

(** The byte [send_header] puts in the media-type slot of a page. *)
Definition media_slot (hdr : cups_page_header2_t) : Z :=
  (if bool_decide (cupsMediaType hdr ≠ 0) then cupsMediaType hdr else 10)
  `mod` 256.

(** What one turn of the page loop does on a printable page whose
    buffers were allocated: [rows_log] is what the row loop did, [y] the
    number of rows it read and [data] the page buffer it left. *)
Definition page_trace (hdr : cups_page_header2_t) (page : Z)
    (rows_log : list event) (y : Z) (data : list Z) : list event :=
  [ EStderr (DbgPage page (cupsWidth hdr) (cupsHeight hdr)
                     (cupsBitsPerPixel hdr) (cupsColorSpace hdr)
                     (cupsMediaType hdr));
    EMalloc (cupsBytesPerLine hdr) true;
    EMalloc (stride (cupsWidth hdr)) true;
    EMalloc (stride (cupsWidth hdr) * cupsHeight hdr) true ]
  ++ rows_log
  ++ [ EStderr (DbgReadLines y);
       EStdout [0x1b; 0x4e; 0x0d; 5];
       EStdout [0x1b; 0x4e; 0x04; 10];
       EStdout [0x1f; 0x11; media_slot hdr];
       EStdout [0x1d; 0x76; 0x30; 0];
       EStdout (le16 (stride (cupsWidth hdr)));
       EStdout (le16 (cupsHeight hdr));
       EStdout data ]
  ++ send_footer
  ++ [ EFlush; EStderr (DbgPageSent page); EFree; EFree; EFree ].

(** The reader with other pages to follow. *)
Definition set_pages (pgs : list page_record) (ras : cups_raster_t)
  : cups_raster_t :=
  {| ras_pixels := ras_pixels ras; ras_pages := pgs |}.

Definition rows_set_pages (pgs : list page_record) (st : rows) : rows :=
  {| r_y := r_y st; r_ras := set_pages pgs (r_ras st);
     r_line_in := r_line_in st; r_line_out := r_line_out st;
     r_page_data := r_page_data st; r_log := r_log st |}.

Definition flow_set_pages (pgs : list page_record) (fl : flow) : flow :=
  match fl with
  | Next ras hp => Next (set_pages pgs ras) hp
  | Return code => Return code
  end.

(** Whether a call to [malloc] returned [NULL]. *)
Definition failed_malloc (e : event) : bool :=
  match e with EMalloc _ false => true | _ => false end.

(** The page loop by recursion on the pages still in the stream; it is
    what [page_loop] computes when its fuel is enough
    ([page_loop_run_pages]). *)
Fixpoint run_pages (pages : list page_record) (hp : heap) (page : Z)
  : option (list event * Z) :=
  match pages with
  | [] =>
      Some ([EReadHeader false; ERasterClose; EStderr (DbgComplete page)], 0)
  | p :: ps =>
      let page := wrap_i32 (page + 1) in
      '(log, fl) ← page_body (pg_header p)
                     {| ras_pixels := pg_pixels p; ras_pages := [] |} hp page;
      match fl with
      | Return code => Some (EReadHeader true :: log, code)
      | Next _ hp2 =>
          '(log2, code) ← run_pages ps hp2 page;
          Some (EReadHeader true :: log ++ log2, code)
      end
  end.

(** The bytes the filter writes for a page all of whose rows it read. *)
Definition page_bytes (p : page_record) : list Z :=
  let hdr := pg_header p in
  if bool_decide (page_empty hdr) then []
  else [0x1b; 0x4e; 0x0d; 5; 0x1b; 0x4e; 0x04; 10; 0x1f; 0x11; media_slot hdr]
       ++ spec_raster_frame (stride (cupsWidth hdr)) (cupsHeight hdr)
            (spec_bitmap (cupsWidth hdr) (cupsBytesPerLine hdr) (pg_pixels p)
                         (Z.to_nat (cupsHeight hdr)))
       ++ spec_footer_frame.

(** The three allocations of a page succeed. *)
Definition allocated3 (hp : heap) : Prop :=
  is_Some (heap_at hp 0) ∧ is_Some (heap_at hp 1) ∧ is_Some (heap_at hp 2).

(** Standard output and exit code of a job of complete pages, from the
    pages and from which allocations succeed. *)
Fixpoint run_model (pages : list page_record) (hp : heap) : list Z * Z :=
  match pages with
  | [] => ([], 0)
  | p :: ps =>
      if bool_decide (page_empty (pg_header p)) then run_model ps hp
      else
        if bool_decide (allocated3 hp) then
          let '(out, code) := run_model ps (heap_after 3 hp) in
          (page_bytes p ++ out, code)
        else ([], 1)
  end.

(** The number of pages of a stream that are not empty. *)
Definition printed (pages : list page_record) : nat :=
  length (filter (λ p, ¬ page_empty (pg_header p)) pages).

(** A trace whose output ends with a flushed footer, if it has any. *)
Definition flushed (t : list event) : Prop :=
  stdout_of t = []
  ∨ ∃ t0 t2, t = t0 ++ send_footer ++ EFlush :: t2 ∧ stdout_of t2 = [].

(** What [main] does before it opens the raster stream. *)
Definition startup_log (e : env) : list event :=
  [EStderr DbgStarting; EStderr (DbgArgc (argc e))]
  ++ (if bool_decide (argc e = 7)
      then [EOpen (default "" (e_argv e !! 6%nat)) (input_fd e)] else []).

(** ** Sample jobs *)

(** The header of an 8-bit grayscale page without row padding. *)
Definition gray_header (w h mt : Z) : cups_page_header2_t :=
  {| cupsWidth := w; cupsHeight := h; cupsBitsPerPixel := 8;
     cupsColorSpace := 18; cupsBytesPerLine := w; cupsMediaType := mt |}.

Definition gray_page (w h mt : Z) (pixels : list Z) : page_record :=
  {| pg_header := gray_header w h mt; pg_pixels := pixels |}.

(** The filter run by the scheduler on its standard input: five job
    arguments after the program name, [pages] in the stream. *)
Definition job (pages : list page_record) (hp : heap) : env :=
  {| e_argv := ["rastertopm110"; "42"; "user"; "title"; "1"; "options"];
     e_open := λ _, -1;
     e_raster_open := λ _, Some {| ras_pixels := []; ras_pages := pages |};
     e_heap := hp |}.

(** A heap whose next [n] allocations succeed and hold the byte [g]. *)
Definition fresh_heap (n : nat) (g : Z) : heap := replicate n (Some (λ _, g)).

(** Scenario 1 of the specification: one black pixel, media type 10. *)
Definition scenario1 : env := job [gray_page 1 1 10 [0x00]] (fresh_heap 3 0).

Definition scenario1_bytes : list Z :=
  [0x1B; 0x4E; 0x0D; 0x05; 0x1B; 0x4E; 0x04; 0x0A; 0x1F; 0x11; 0x0A;
   0x1D; 0x76; 0x30; 0x00; 0x01; 0x00; 0x01; 0x00;
   0x80;
   0x1F; 0xF0; 0x05; 0x00; 0x1F; 0xF0; 0x03; 0x00].

(** The same environment with [pages] as the pages of every stream. *)
Definition with_pages (e : env) (pages : list page_record) : env :=
  {| e_argv := e_argv e;
     e_open := e_open e;
     e_raster_open := λ fd, set_pages pages <$> e_raster_open e fd;
     e_heap := e_heap e |}.

(** The same environment with another argument vector. *)
Definition with_args (args : list string) (e : env) : env :=
  {| e_argv := args; e_open := e_open e;
     e_raster_open := e_raster_open e; e_heap := e_heap e |}.


(** ** Accounting of a run *)

(** The number of events of a trace that satisfy [f]. *)
Definition count_events (f : event → bool) (t : list event) : nat :=
  length (List.filter f t).

Definition is_malloc (e : event) : bool :=
  match e with EMalloc _ _ => true | _ => false end.

Definition is_free (e : event) : bool :=
  match e with EFree => true | _ => false end.

Definition is_flush (e : event) : bool :=
  match e with EFlush => true | _ => false end.

Definition is_close (e : event) : bool :=
  match e with ERasterClose => true | _ => false end.

(** The bytes the filter writes for the pages of a stream: 11 of init
    frame, 8 of raster header, [stride * height] of bitmap and 8 of
    footer for every page that is not empty. *)
Fixpoint job_size (pages : list page_record) : Z :=
  match pages with
  | [] => 0
  | p :: ps =>
      (if bool_decide (page_empty (pg_header p)) then 0
       else 27 + stride (cupsWidth (pg_header p)) * cupsHeight (pg_header p))
      + job_size ps
  end.


(** ** Integer and buffer lemmas *)

Lemma wrap_i32_id z : - 2 ^ 31 ≤ z ≤ INT_MAX → wrap_i32 z = z.
Proof.
  unfold wrap_i32, INT_MAX. intros Hz.
  rewrite Z.mod_small by lia. lia.
Qed.

Lemma wrap_u32_id z : 0 ≤ z < 2 ^ 32 → wrap_u32 z = z.
Proof. unfold wrap_u32. intros Hz. by rewrite Z.mod_small. Qed.

Lemma for_loop_snoc {S : Type} (n : nat) (i : Z) body (s : S) :
  for_loop (Datatypes.S n) i body s
  = s' ← for_loop n i body s; body (i + Z.of_nat n) s'.
Proof.
  revert i s. induction n as [|n IH]; intros i s.
  - simpl. rewrite Z.add_0_r. by destruct (body i s).
  - change (for_loop (Datatypes.S (Datatypes.S n)) i body s)
      with (s' ← body i s; for_loop (Datatypes.S n) (i + 1) body s').
    destruct (body i s) as [s1|] eqn:Hb; simpl; [|by rewrite Hb].
    rewrite Hb. simpl.
    specialize (IH (i + 1) s1). simpl in IH. rewrite IH.
    replace (i + 1 + Z.of_nat n) with (i + Z.of_nat (Datatypes.S n)) by lia.
    done.
Qed.

(** ** The thresholder *)

Lemma testbit_shiftl_b2z (b : bool) (s j : Z) :
  0 ≤ s → Z.testbit (Z.shiftl (Z.b2z b) s) j = b && (j =? s).
Proof.
  intros Hs. destruct b; simpl.
  - rewrite Z.shiftl_1_l, Z.pow2_bits_eqb by done. by rewrite Z.eqb_sym.
  - by rewrite Z.shiftl_0_l, Z.bits_0.
Qed.

Lemma load_Some buf i : 0 ≤ i → load buf i = buf !! Z.to_nat i.
Proof. intros Hi. unfold load. by rewrite bool_decide_eq_true_2. Qed.

Lemma store_Some buf i v :
  0 ≤ i < blen buf → store buf i v = Some (<[Z.to_nat i := v]> buf).
Proof. intros Hi. unfold store. by rewrite bool_decide_eq_true_2. Qed.

Lemma memset_Some buf c n :
  0 ≤ n ≤ blen buf →
  memset buf c n = Some (replicate (Z.to_nat n) c ++ drop (Z.to_nat n) buf).
Proof. intros Hn. unfold memset. by rewrite bool_decide_eq_true_2. Qed.

Lemma spec_burn_succ w r x :
  0 ≤ w →
  spec_burn (w + 1) r x
  = spec_burn w r x
    || bool_decide (x = w)
       && from_option (λ s, bool_decide (s < 128)) false (r !! Z.to_nat w).
Proof.
  intros Hw. unfold spec_burn.
  destruct (decide (x = w)) as [->|Hne].
  - rewrite (bool_decide_eq_true_2 (0 ≤ w < w + 1)) by lia.
    rewrite (bool_decide_eq_false_2 (0 ≤ w < w)) by lia.
    by rewrite (bool_decide_eq_true_2 (w = w)).
  - rewrite (bool_decide_eq_false_2 (x = w)) by done.
    rewrite orb_false_r. f_equal. apply bool_decide_ext. lia.
Qed.

Lemma convert_pixel_step (r dst : list Z) (n w : Z) :
  0 ≤ n < w → w ≤ blen r → blen dst = stride w →
  row_bits n r dst →
  ∃ dst', convert_pixel r n dst = Some dst' ∧ blen dst' = stride w
          ∧ row_bits (n + 1) r dst'.
Proof.
  intros Hn Hr Hlen Hinv. unfold convert_pixel.
  rewrite Z.quot_div_nonneg, Z.rem_mod_nonneg by lia.
  rewrite (load_Some r) by lia.
  assert (Hq : 0 ≤ n `div` 8 < stride w).
  { unfold stride. Z.div_mod_to_equations. lia. }
  assert (Hm : 0 ≤ n `mod` 8 < 8) by (apply Z.mod_pos_bound; lia).
  assert (Hdm : n = 8 * (n `div` 8) + n `mod` 8) by (apply Z.div_mod; lia).
  destruct (lookup_lt_is_Some_2 r (Z.to_nat n)) as [s Hs].
  { unfold blen in Hr. lia. }
  rewrite Hs. simpl.
  destruct (Z.ltb_spec s 128) as [Hlt|Hge].
  - rewrite load_Some by lia.
    destruct (lookup_lt_is_Some_2 dst (Z.to_nat (n `div` 8))) as [d Hd].
    { unfold blen in Hlen. lia. }
    rewrite Hd. simpl. rewrite store_Some by lia.
    eexists. split; [done|]. split.
    { unfold blen in *. by rewrite length_insert. }
    intros i b j Hi Hj.
    rewrite spec_burn_succ, Hs by lia. simpl.
    rewrite (bool_decide_eq_true_2 (s < 128)) by done. rewrite andb_true_r.
    destruct (decide (i = Z.to_nat (n `div` 8))) as [->|Hne].
    + rewrite list_lookup_insert_eq in Hi by (unfold blen in Hlen; lia).
      injection Hi as <-. unfold to_uchar.
      rewrite Z.testbit_mod_pow2 by lia.
      rewrite Z.lor_spec, (Hinv _ _ _ Hd Hj).
      change 1 with (Z.b2z true) at 1.
      rewrite testbit_shiftl_b2z by lia. simpl.
      rewrite Z2Nat.id by lia.
      destruct (Z.ltb_spec j 8) as [Hj8|Hj8].
      * rewrite (bool_decide_eq_true_2 (j < 8)) by done. simpl. f_equal.
        destruct (Z.eqb_spec j (7 - n `mod` 8)) as [->|Hne].
        -- by rewrite bool_decide_eq_true_2 by lia.
        -- by rewrite bool_decide_eq_false_2 by lia.
      * by rewrite (bool_decide_eq_false_2 (j < 8)) by lia.
    + rewrite list_lookup_insert_ne in Hi by done.
      rewrite (Hinv _ _ _ Hi Hj).
      destruct (Z.ltb_spec j 8) as [Hj8|Hj8].
      * rewrite (bool_decide_eq_true_2 (j < 8)) by done. simpl.
        rewrite (bool_decide_eq_false_2 (_ = n)) by lia.
        by rewrite orb_false_r.
      * by rewrite (bool_decide_eq_false_2 (j < 8)) by lia.
  - eexists. split; [done|]. split; [done|].
    intros i b j Hi Hj.
    rewrite spec_burn_succ, Hs by lia. simpl.
    rewrite (bool_decide_eq_false_2 (s < 128)) by lia.
    rewrite andb_false_r, orb_false_r. by apply Hinv.
Qed.

Lemma convert_loop_inv (r dst : list Z) (w : Z) (n : nat) :
  Z.of_nat n ≤ w → w ≤ blen r → blen dst = stride w →
  row_bits 0 r dst →
  ∃ out, for_loop n 0 (convert_pixel r) dst = Some out ∧ blen out = stride w
         ∧ row_bits (Z.of_nat n) r out.
Proof.
  intros Hn Hr Hlen H0. induction n as [|n IH].
  - exists dst. done.
  - destruct IH as (mid & Hmid & Hlm & Hinv); [lia|].
    rewrite for_loop_snoc, Hmid. simpl. rewrite Z.add_0_l.
    destruct (convert_pixel_step r mid (Z.of_nat n) w) as (out & Ho & Hlo & Hio);
      [lia|done|done|done|].
    exists out. split; [done|]. split; [done|].
    by replace (Z.of_nat (S n)) with (Z.of_nat n + 1) by lia.
Qed.

Lemma spec_burn_0 r x : spec_burn 0 r x = false.
Proof. unfold spec_burn. by rewrite bool_decide_eq_false_2 by lia. Qed.

Lemma stride_nonneg w : 0 ≤ w → 0 ≤ stride w.
Proof. intros Hw. unfold stride. Z.div_mod_to_equations. lia. Qed.

Lemma convert_line_row_bits (r dst : list Z) (w : Z) :
  0 ≤ w ≤ blen r → w + 7 ≤ INT_MAX → blen dst = stride w →
  ∃ out, convert_line_to_1bit r dst w = Some out ∧ blen out = stride w
         ∧ row_bits w r out.
Proof.
  intros Hw Hmax Hlen. unfold convert_line_to_1bit.
  rewrite wrap_i32_id by (unfold INT_MAX in *; lia).
  rewrite Z.quot_div_nonneg by lia. fold (stride w).
  pose proof (stride_nonneg w) as Hs.
  rewrite memset_Some by lia. simpl.
  rewrite drop_ge by (unfold blen in Hlen; lia). rewrite app_nil_r.
  destruct (convert_loop_inv r (replicate (Z.to_nat (stride w)) 0) w
              (Z.to_nat w)) as (out & Ho & Hlo & Hio); [lia|lia| | |].
  - unfold blen. rewrite length_replicate. lia.
  - intros i b j Hi Hj. apply lookup_replicate in Hi as [-> _].
    by rewrite Z.bits_0, spec_burn_0, andb_false_r.
  - exists out. rewrite Z2Nat.id in Hio by lia. done.
Qed.

Lemma testbit_spec_output_byte w r i j :
  0 ≤ j →
  Z.testbit (spec_output_byte w r i) j
  = bool_decide (j < 8) && spec_burn w r (8 * i + (7 - j)).
Proof.
  intros Hj. unfold spec_output_byte. simpl.
  rewrite !Z.lor_spec, !testbit_shiftl_b2z, Z.bits_0 by lia.
  destruct (decide (j < 8)) as [Hlt|Hge].
  - rewrite bool_decide_eq_true_2 by done.
    assert (j = 0 ∨ j = 1 ∨ j = 2 ∨ j = 3 ∨ j = 4 ∨ j = 5 ∨ j = 6 ∨ j = 7)
      as Hc by lia.
    destruct Hc as [->|[->|[->|[->|[->|[->|[->| ->]]]]]]]; simpl;
      rewrite ?andb_false_r, ?andb_true_r, ?orb_false_r; simpl; done.
  - rewrite bool_decide_eq_false_2 by done. simpl.
    repeat (rewrite (proj2 (Z.eqb_neq j _)) by lia).
    by rewrite !andb_false_r.
Qed.

Lemma convert_line_to_1bit_spec (r dst : list Z) (w : Z) :
  0 ≤ w ≤ blen r → w + 7 ≤ INT_MAX → blen dst = stride w →
  convert_line_to_1bit r dst w = Some (spec_output_row w r).
Proof.
  intros Hw Hmax Hlen.
  destruct (convert_line_row_bits r dst w) as (out & -> & Hlo & Hbits);
    [done..|].
  f_equal. pose proof (stride_nonneg w) as Hs.
  apply (list_eq_same_length _ _ (Z.to_nat (stride w))).
  - unfold spec_output_row. by rewrite length_fmap, length_seq.
  - unfold blen in Hlo. lia.
  - intros i x y Hi Hx Hy. unfold spec_output_row in Hy.
    rewrite list_lookup_fmap, lookup_seq_lt in Hy by done.
    simpl in Hy. injection Hy as <-.
    apply Z.bits_inj'. intros j Hj.
    by rewrite (Hbits _ _ _ Hx Hj), testbit_spec_output_byte.
Qed.



(** ** The row loop *)

Lemma memcpy_Some dst off src n :
  0 ≤ off → 0 ≤ n → off + n ≤ blen dst → n ≤ blen src →
  memcpy dst off src n
  = Some (take (Z.to_nat off) dst ++ take (Z.to_nat n) src
          ++ drop (Z.to_nat (off + n)) dst).
Proof. intros. unfold memcpy. by rewrite bool_decide_eq_true_2. Qed.

Lemma blen_app l1 l2 : blen (l1 ++ l2) = blen l1 + blen l2.
Proof. unfold blen. rewrite length_app. lia. Qed.

Lemma blen_take n l : 0 ≤ n ≤ blen l → blen (take (Z.to_nat n) l) = n.
Proof. unfold blen. intros Hn. rewrite length_take. lia. Qed.

Lemma blen_drop n l : 0 ≤ n ≤ blen l → blen (drop (Z.to_nat n) l) = blen l - n.
Proof. unfold blen. intros Hn. rewrite length_drop. lia. Qed.

Lemma blen_nonneg l : 0 ≤ blen l.
Proof. unfold blen. lia. Qed.

Lemma memcpy_blen dst off src n out :
  memcpy dst off src n = Some out → blen out = blen dst.
Proof.
  unfold memcpy. case_bool_decide as H; [|done]. intros [= <-].
  rewrite !blen_app, !blen_take, blen_drop by lia. lia.
Qed.

Lemma cupsRasterReadPixels_ok ras buf len :
  0 < len ≤ blen (ras_pixels ras) → blen buf = len →
  cupsRasterReadPixels ras buf len
  = Some (len, take (Z.to_nat len) (ras_pixels ras),
          {| ras_pixels := drop (Z.to_nat len) (ras_pixels ras);
             ras_pages := ras_pages ras |}).
Proof.
  intros Hlen Hbuf. unfold cupsRasterReadPixels.
  rewrite bool_decide_eq_true_2 by done.
  rewrite memcpy_Some by lia. simpl.
  rewrite drop_ge by (unfold blen in Hbuf; lia).
  by rewrite app_nil_r.
Qed.

Lemma cupsRasterReadPixels_short ras buf len :
  ¬ (0 < len ≤ blen (ras_pixels ras)) →
  cupsRasterReadPixels ras buf len = Some (0, buf, ras).
Proof.
  intros Hlen. unfold cupsRasterReadPixels.
  by rewrite bool_decide_eq_false_2.
Qed.

Lemma stdout_of_app t1 t2 : stdout_of (t1 ++ t2) = stdout_of t1 ++ stdout_of t2.
Proof. unfold stdout_of. apply bind_app. Qed.

Lemma blen_spec_output_row w r : 0 ≤ w → blen (spec_output_row w r) = stride w.
Proof.
  intros Hw. unfold blen, spec_output_row.
  rewrite length_fmap, length_seq. pose proof (stride_nonneg w). lia.
Qed.

Lemma stride_pos w : 0 < w → 0 < stride w.
Proof. intros Hw. unfold stride. Z.div_mod_to_equations. lia. Qed.

(** One turn of the row loop whose read succeeds. *)
Lemma read_rows_step (hdr : cups_page_header2_t) (n : nat) (st : rows) :
  page_printable hdr → rows_sized hdr st → 0 ≤ r_y st < cupsHeight hdr →
  cupsBytesPerLine hdr ≤ blen (ras_pixels (r_ras st)) →
  let bpl := Z.to_nat (cupsBytesPerLine hdr) in
  let wb := stride (cupsWidth hdr) in
  let row := spec_output_row (cupsWidth hdr) (take bpl (ras_pixels (r_ras st))) in
  read_rows (S n) hdr wb st
  = read_rows n hdr wb
      {| r_y := r_y st + 1;
         r_ras := {| ras_pixels := drop bpl (ras_pixels (r_ras st));
                     ras_pages := ras_pages (r_ras st) |};
         r_line_in := take bpl (ras_pixels (r_ras st));
         r_line_out := row;
         r_page_data :=
           take (Z.to_nat (r_y st * wb)) (r_page_data st) ++ row
           ++ drop (Z.to_nat (r_y st * wb + wb)) (r_page_data st);
         r_log := r_log st
                  ++ [EReadPixels (cupsBytesPerLine hdr) (cupsBytesPerLine hdr)] |}.
Proof.
  destruct hdr as [w h bpp cs bpl mt]. unfold page_printable, rows_sized.
  simpl. intros (Hw & Hh & Hbpl & Hmax & Hsz) (Hin & Hout & Hpd) Hy Hpx.
  pose proof (stride_pos w Hw) as Hwb.
  set (wb := stride w) in *.
  set (row := spec_output_row w _).
  unfold INT_MAX in *.
  assert (Hhmax : h ≤ 2147483647) by nia.
  assert (Hywb : 0 ≤ r_y st * wb ∧ r_y st * wb + wb ≤ wb * h) by nia.
  rewrite cupsRasterReadPixels_ok by lia. simpl.
  destruct (Z.eqb_spec bpl 0) as [?|_]; [lia|].
  rewrite (wrap_i32_id w), (wrap_i32_id (r_y st + 1)),
    (wrap_i32_id (r_y st * wb)) by (unfold INT_MAX; lia).
  rewrite convert_line_to_1bit_spec; [| |unfold INT_MAX; lia|done].
  2:{ rewrite blen_take by lia. lia. }
  simpl. fold row.
  assert (Hrow : blen row = wb) by (apply blen_spec_output_row; lia).
  rewrite memcpy_Some by lia. simpl.
  rewrite (take_ge row) by (unfold blen in Hrow; lia).
  done.
Qed.


Lemma read_rows_break (hdr : cups_page_header2_t) (n : nat) (wb : Z)
    (st : rows) :
  ¬ (0 < cupsBytesPerLine hdr ≤ blen (ras_pixels (r_ras st))) →
  read_rows (S n) hdr wb st
  = Some {| r_y := r_y st; r_ras := r_ras st; r_line_in := r_line_in st;
            r_line_out := r_line_out st; r_page_data := r_page_data st;
            r_log := (r_log st ++ [EReadPixels (cupsBytesPerLine hdr) 0])
                     ++ [EStderr (DbgReadError (r_y st))] |}.
Proof.
  intros Hshort. simpl. by rewrite cupsRasterReadPixels_short.
Qed.

Lemma spec_bitmap_S w bpl px n :
  spec_bitmap w bpl px (S n)
  = spec_output_row w (take (Z.to_nat bpl) px)
    ++ spec_bitmap w bpl (drop (Z.to_nat bpl) px) n.
Proof.
  unfold spec_bitmap. rewrite <- cons_seq, bind_cons, <- fmap_S_seq.
  rewrite list_fmap_bind. f_equal.
  apply list_bind_ext; [|done]. intros y. simpl. unfold input_row.
  rewrite drop_drop. by do 3 f_equal.
Qed.

Lemma blen_spec_bitmap w bpl px n :
  0 ≤ w → blen (spec_bitmap w bpl px n) = Z.of_nat n * stride w.
Proof.
  intros Hw. revert px. induction n as [|n IH]; intros px; [done|].
  rewrite spec_bitmap_S, blen_app, IH, blen_spec_output_row by done. lia.
Qed.

(** The row loop on a printable page: it ends, keeps the buffers' sizes,
    leaves the following pages alone and writes nothing to standard
    output. *)
Lemma read_rows_sane (hdr : cups_page_header2_t) (n : nat) (st : rows) :
  page_printable hdr → rows_sized hdr st →
  0 ≤ r_y st → r_y st + Z.of_nat n ≤ cupsHeight hdr →
  ∃ st', read_rows n hdr (stride (cupsWidth hdr)) st = Some st'
    ∧ rows_sized hdr st'
    ∧ ras_pages (r_ras st') = ras_pages (r_ras st)
    ∧ ∃ l, r_log st' = r_log st ++ l ∧ Forall row_event l.
Proof.
  intros Hp. revert st. induction n as [|n IH]; intros st Hsz Hy Hn.
  - exists st. split; [done|]. split; [done|]. split; [done|].
    exists []. by rewrite app_nil_r.
  - destruct (decide (cupsBytesPerLine hdr ≤ blen (ras_pixels (r_ras st))))
      as [Hfull|Hshort].
    + rewrite read_rows_step by (done || lia).
      match goal with |- ∃ _, read_rows _ _ _ ?s = _ ∧ _ =>
        destruct (IH s) as (st' & -> & Hsz' & Hpg & l & Hlog & Hl) end.
      * destruct Hp as (Hw & Hh & Hbpl & Hmax & Hmul).
        destruct Hsz as (Hin & Hout & Hpd).
        pose proof (stride_pos _ Hw) as Hwb.
        assert (0 ≤ r_y st * stride (cupsWidth hdr)
                ∧ r_y st * stride (cupsWidth hdr) + stride (cupsWidth hdr)
                  ≤ stride (cupsWidth hdr) * cupsHeight hdr) by nia.
        repeat split; simpl.
        -- rewrite blen_take; lia.
        -- rewrite blen_spec_output_row; lia.
        -- rewrite !blen_app, blen_take, blen_drop, blen_spec_output_row
             by lia. lia.
      * simpl. lia.
      * simpl. lia.
      * exists st'. simpl in *. split; [done|]. split; [done|].
        split; [done|]. eexists. rewrite Hlog, <- app_assoc. split; [done|].
        apply Forall_app. split; [|done]. by repeat constructor.
    + rewrite read_rows_break.
      2:{ destruct Hp as (Hw & Hh & Hbpl & _). lia. }
      eexists. split; [done|]. simpl. split; [done|]. split; [done|].
      eexists. rewrite <- app_assoc. split; [done|].
      by repeat constructor.
Qed.

Lemma to_nat_mul_of_nat (k : nat) (z : Z) :
  0 ≤ z → Z.to_nat (Z.of_nat k * z) = (k * Z.to_nat z)%nat.
Proof. intros Hz. rewrite Z2Nat.inj_mul, Nat2Z.id by lia. done. Qed.

(** The row loop when the stream holds the [n] rows asked for: every
    row is thresholded into its slot of the page buffer. *)
Lemma read_rows_complete (hdr : cups_page_header2_t) (n k : nat) (st : rows) :
  page_printable hdr → rows_sized hdr st →
  r_y st = Z.of_nat k → Z.of_nat (k + n) ≤ cupsHeight hdr →
  Z.of_nat n * cupsBytesPerLine hdr ≤ blen (ras_pixels (r_ras st)) →
  let WB := Z.to_nat (stride (cupsWidth hdr)) in
  ∃ st', read_rows n hdr (stride (cupsWidth hdr)) st = Some st'
    ∧ r_y st' = Z.of_nat (k + n)
    ∧ r_ras st'
      = {| ras_pixels := drop (n * Z.to_nat (cupsBytesPerLine hdr))
                              (ras_pixels (r_ras st));
           ras_pages := ras_pages (r_ras st) |}
    ∧ r_page_data st'
      = take (k * WB) (r_page_data st)
        ++ spec_bitmap (cupsWidth hdr) (cupsBytesPerLine hdr)
                       (ras_pixels (r_ras st)) n
        ++ drop ((k + n) * WB) (r_page_data st).
Proof.
  intros Hp Hsz Hy Hn Hpx WB. revert k st Hsz Hy Hn Hpx.
  induction n as [|n IH]; intros k st Hsz Hy Hn Hpx.
  - exists st. split; [done|]. split; [by rewrite Hy, Nat.add_0_r|]. split.
    + simpl. by destruct (r_ras st).
    + simpl. rewrite Nat.add_0_r. by rewrite take_drop.
  - pose proof Hp as (Hw & Hh & Hbpl & Hmax & Hmul).
    pose proof Hsz as (Hin & Hout & Hpd).
    pose proof (stride_pos _ Hw) as Hwb.
    pose proof (blen_nonneg (ras_pixels (r_ras st))) as Hpx0.
    assert (Hone : cupsBytesPerLine hdr ≤ blen (ras_pixels (r_ras st))) by nia.
    assert (Hoff : 0 ≤ r_y st * stride (cupsWidth hdr)
                   ∧ r_y st * stride (cupsWidth hdr) + stride (cupsWidth hdr)
                     ≤ stride (cupsWidth hdr) * cupsHeight hdr) by nia.
    rewrite read_rows_step by (done || lia).
    match goal with |- ∃ _, read_rows _ _ _ ?s = _ ∧ _ =>
      destruct (IH (S k) s) as (st' & -> & Hy' & Hras & Hdata) end.
    + repeat split; simpl.
      * rewrite blen_take; lia.
      * rewrite blen_spec_output_row; lia.
      * rewrite !blen_app, blen_take, blen_drop, blen_spec_output_row by lia.
        lia.
    + simpl. lia.
    + lia.
    + simpl. rewrite blen_drop by lia. nia.
    + exists st'. split; [done|]. split; [rewrite Hy'; f_equal; lia|]. split.
      * rewrite Hras. simpl. rewrite drop_drop. done.
      * rewrite Hdata. simpl. rewrite spec_bitmap_S.
        rewrite Hy, Z2Nat.inj_add, to_nat_mul_of_nat by lia. fold WB.
        assert (HA : (k * WB)%nat = length (take (k * WB) (r_page_data st))).
        { rewrite length_take. unfold blen in Hpd. subst WB. nia. }
        assert (HR : WB = length (spec_output_row (cupsWidth hdr)
                  (take (Z.to_nat (cupsBytesPerLine hdr))
                        (ras_pixels (r_ras st))))).
        { unfold spec_output_row. by rewrite length_fmap, length_seq. }
        replace (WB + k * WB)%nat with (k * WB + WB)%nat by lia.
        rewrite take_app_add' by done.
        rewrite take_app_length' by done.
        replace (WB + (k + n) * WB)%nat with (k * WB + (WB + n * WB))%nat by lia.
        rewrite drop_app_add' by done.
        rewrite drop_app_add' by done.
        rewrite drop_drop, <- !app_assoc.
        replace (k * WB + WB + n * WB)%nat with ((k + S n) * WB)%nat by lia.
        done.
Qed.

(** ** One turn of the page loop *)

Lemma to_uchar_wrap_i32 z : to_uchar (wrap_i32 z) = z `mod` 256.
Proof.
  unfold to_uchar, wrap_i32.
  change (2 ^ 8) with 256. change (2 ^ 31) with 2147483648.
  change (2 ^ 32) with 4294967296.
  Z.div_mod_to_equations. lia.
Qed.

Lemma to_uchar_land z : to_uchar (Z.land z 0xff) = z `mod` 256.
Proof.
  unfold to_uchar. change 0xff with (Z.ones 8).
  rewrite Z.land_ones by lia. rewrite Z.mod_mod by lia. done.
Qed.

Lemma shiftr_8 z : Z.shiftr z 8 = z `div` 256.
Proof. by rewrite Z.shiftr_div_pow2 by lia. Qed.

Lemma stdout_of_row_events l : Forall row_event l → stdout_of l = [].
Proof.
  induction 1 as [|e l He _ IH]; [done|].
  change (e :: l) with ([e] ++ l). rewrite stdout_of_app, IH.
  by destruct e as [[]| | | | | | | | |].
Qed.

Lemma stdout_of_page_trace hdr page l y data :
  Forall row_event l →
  stdout_of (page_trace hdr page l y data)
  = [0x1b; 0x4e; 0x0d; 5; 0x1b; 0x4e; 0x04; 10; 0x1f; 0x11; media_slot hdr]
    ++ spec_raster_frame (stride (cupsWidth hdr)) (cupsHeight hdr) data
    ++ spec_footer_frame.
Proof.
  intros Hl. unfold page_trace.
  rewrite !stdout_of_app, (stdout_of_row_events l Hl). simpl.
  by rewrite app_nil_r.
Qed.

Lemma page_body_empty hdr ras hp page :
  page_empty hdr →
  page_body hdr ras hp page
  = Some ([EStderr (DbgPage page (cupsWidth hdr) (cupsHeight hdr)
                            (cupsBitsPerPixel hdr) (cupsColorSpace hdr)
                            (cupsMediaType hdr));
           EStderr DbgEmptyPage], Next ras hp).
Proof.
  intros He. unfold page_body. by rewrite bool_decide_eq_true_2.
Qed.

Lemma heap_at_drop n hp k : heap_at (drop n hp) k = heap_at hp (n + k).
Proof. unfold heap_at. by rewrite lookup_drop. Qed.

Lemma heap_three hp :
  is_Some (heap_at hp 0) → is_Some (heap_at hp 1) → is_Some (heap_at hp 2) →
  ∃ g0 g1 g2 hp', hp = Some g0 :: Some g1 :: Some g2 :: hp'.
Proof.
  unfold heap_at.
  destruct hp as [|[g0|] [|[g1|] [|[g2|] hp']]]; simpl;
    intros [? ?] [? ?] [? ?]; try done.
  by exists g0, g1, g2, hp'.
Qed.

Lemma page_body_alloc_failure hdr ras hp page :
  ¬ page_empty hdr →
  heap_at hp 0 = None ∨ heap_at hp 1 = None ∨ heap_at hp 2 = None →
  ∃ s0 s1 s2 b0 b1 b2,
    page_body hdr ras hp page
    = Some ([EStderr (DbgPage page (cupsWidth hdr) (cupsHeight hdr)
                              (cupsBitsPerPixel hdr) (cupsColorSpace hdr)
                              (cupsMediaType hdr));
             EMalloc s0 b0; EMalloc s1 b1; EMalloc s2 b2;
             EStderr ErrAlloc], Return 1)
    ∧ b0 && b1 && b2 = false.
Proof.
  intros He Hhp. unfold page_body, malloc, heap_at in *.
  rewrite bool_decide_eq_false_2 by done.
  destruct hp as [|[g0|] [|[g1|] [|[g2|] hp']]]; simpl in *;
    try (do 6 eexists; split; [reflexivity|]; done).
  by destruct Hhp as [?|[?|?]].
Qed.

Lemma blen_malloc (g : nat → Z) (size : Z) :
  0 ≤ size → blen ((λ i, to_uchar (g i)) <$> seq 0 (Z.to_nat size)) = size.
Proof. intros Hs. unfold blen. rewrite length_fmap, length_seq. lia. Qed.

Lemma send_raster_printable hdr data :
  page_printable hdr →
  blen data = stride (cupsWidth hdr) * cupsHeight hdr →
  send_raster data (wrap_i32 (cupsWidth hdr)) (wrap_i32 (cupsHeight hdr))
  = Some [EStdout [0x1d; 0x76; 0x30; 0];
          EStdout (le16 (stride (cupsWidth hdr)));
          EStdout (le16 (cupsHeight hdr));
          EStdout data].
Proof.
  intros (Hw & Hh & Hbpl & Hmax & Hmul) Hdata.
  pose proof (stride_pos _ Hw) as Hwb.
  unfold send_raster. unfold INT_MAX in *.
  assert (cupsHeight hdr ≤ 2147483647) by nia.
  rewrite (wrap_i32_id (cupsWidth hdr)), (wrap_i32_id (cupsHeight hdr)),
    (wrap_i32_id (cupsWidth hdr + 7)) by (unfold INT_MAX; lia).
  rewrite Z.quot_div_nonneg by lia. fold (stride (cupsWidth hdr)).
  rewrite wrap_i32_id by (unfold INT_MAX; lia).
  unfold fwrite. rewrite bool_decide_eq_true_2 by lia. simpl.
  rewrite take_ge by (unfold blen in Hdata; lia).
  rewrite !to_uchar_land, !shiftr_8. done.
Qed.

(** One turn of the page loop on a printable page whose three buffers
    are allocated. *)
Lemma page_body_printable hdr ras hp page :
  page_printable hdr →
  is_Some (heap_at hp 0) → is_Some (heap_at hp 1) → is_Some (heap_at hp 2) →
  ∃ l y data ras',
    page_body hdr ras hp page
    = Some (page_trace hdr page l y data, Next ras' (heap_after 3 hp))
    ∧ Forall row_event l
    ∧ blen data = stride (cupsWidth hdr) * cupsHeight hdr
    ∧ ras_pages ras' = ras_pages ras
    ∧ (cupsBytesPerLine hdr * cupsHeight hdr ≤ blen (ras_pixels ras) →
       y = cupsHeight hdr
       ∧ data = spec_bitmap (cupsWidth hdr) (cupsBytesPerLine hdr)
                            (ras_pixels ras) (Z.to_nat (cupsHeight hdr))
       ∧ ras' = {| ras_pixels :=
                     drop (Z.to_nat (cupsHeight hdr)
                           * Z.to_nat (cupsBytesPerLine hdr))
                          (ras_pixels ras);
                   ras_pages := ras_pages ras |}).
Proof.
  intros Hp H0 H1 H2.
  destruct (heap_three hp H0 H1 H2) as (g0 & g1 & g2 & hp' & ->).
  pose proof Hp as (Hw & Hh & Hbpl & Hmax & Hmul).
  pose proof (stride_pos _ Hw) as Hwb.
  unfold page_body, malloc, heap_after.
  rewrite bool_decide_eq_false_2 by (unfold page_empty; lia).
  rewrite (wrap_u32_id (cupsWidth hdr + 7)) by (unfold INT_MAX in *; lia).
  fold (stride (cupsWidth hdr)).
  rewrite wrap_u32_id by (unfold INT_MAX in *; lia).
  simpl.
  set (st0 := {| r_y := 0; r_ras := ras |}).
  assert (Hsz0 : rows_sized hdr st0).
  { unfold rows_sized, st0; simpl. rewrite !blen_malloc by lia. done. }
  destruct (read_rows_sane hdr (Z.to_nat (cupsHeight hdr)) st0)
    as (st & Hrun & Hsz & Hpg & l & Hlog & Hl); [done|done|simpl; lia..|].
  rewrite Hrun. simpl.
  destruct Hsz as (_ & _ & Hdata).
  rewrite send_raster_printable by done. simpl.
  rewrite to_uchar_wrap_i32. fold (media_slot hdr).
  exists l, (r_y st), (r_page_data st), (r_ras st).
  split; [|split; [done|split; [done|split; [done|]]]].
  - unfold page_trace. rewrite Hlog. simpl. done.
  - intros Hfull.
    destruct (read_rows_complete hdr (Z.to_nat (cupsHeight hdr)) 0 st0)
      as (st2 & Hrun2 & Hy2 & Hras2 & Hdata2);
      [done|done|done|simpl; lia|simpl; lia|].
    rewrite Hrun in Hrun2. injection Hrun2 as <-.
    split; [rewrite Hy2; simpl; lia|]. split; [|done].
    rewrite Hdata2. simpl.
    rewrite drop_ge, app_nil_r; [done|].
    destruct Hsz0 as (_ & _ & Hpd0). unfold blen in Hpd0. simpl in *. nia.
Qed.

(** ** The page loop *)

Lemma cupsRasterReadPixels_set_pages pgs ras buf len :
  cupsRasterReadPixels (set_pages pgs ras) buf len
  = (λ '(ret, buf', ras'), (ret, buf', set_pages pgs ras'))
    <$> cupsRasterReadPixels ras buf len.
Proof.
  unfold cupsRasterReadPixels. simpl. case_bool_decide; [|done].
  by destruct (memcpy buf 0 (ras_pixels ras) len).
Qed.

Lemma read_rows_set_pages pgs n hdr wb st :
  read_rows n hdr wb (rows_set_pages pgs st)
  = rows_set_pages pgs <$> read_rows n hdr wb st.
Proof.
  revert st. induction n as [|n IH]; intros st; [done|].
  simpl. rewrite cupsRasterReadPixels_set_pages.
  destruct (cupsRasterReadPixels (r_ras st) (r_line_in st)
              (cupsBytesPerLine hdr)) as [[[ret buf] ras']|]; [|done].
  simpl. destruct (ret =? 0); [done|].
  destruct (convert_line_to_1bit buf (r_line_out st)
              (wrap_i32 (cupsWidth hdr))) as [line_out|]; [|done].
  simpl.
  destruct (memcpy (r_page_data st) (wrap_i32 (r_y st * wb)) line_out wb)
    as [page_data|]; [|done].
  simpl. by rewrite <- IH.
Qed.

Lemma page_body_set_pages pgs hdr ras hp page :
  page_body hdr (set_pages pgs ras) hp page
  = (λ '(log, fl), (log, flow_set_pages pgs fl)) <$> page_body hdr ras hp page.
Proof.
  unfold page_body. case_bool_decide; [done|].
  destruct (malloc hp _) as [[line_in|] hp1],
    (malloc hp1 _) as [[line_out|] hp2],
    (malloc hp2 _) as [[page_data|] hp3]; try done.
  match goal with |- context [read_rows ?n ?h ?w ?s] =>
    change s with (rows_set_pages pgs
      {| r_y := 0; r_ras := ras; r_line_in := line_in;
         r_line_out := line_out; r_page_data := page_data; r_log := [] |})
  end.
  rewrite read_rows_set_pages.
  destruct (read_rows _ _ _ _) as [st|]; [|done]. simpl.
  by destruct (send_raster _ _ _).
Qed.

Lemma set_pages_id ras : set_pages (ras_pages ras) ras = ras.
Proof. by destruct ras. Qed.

Lemma page_body_pages hdr ras hp page log ras' hp' :
  page_body hdr ras hp page = Some (log, Next ras' hp') →
  ras_pages ras' = ras_pages ras.
Proof.
  rewrite <- (set_pages_id ras) at 1. rewrite page_body_set_pages.
  destruct (page_body hdr ras hp page) as [[log0 [ras0 hp0|c]]|]; try done.
  simpl. by intros [= _ <- _].
Qed.

Lemma read_rows_log n hdr wb st st' :
  read_rows n hdr wb st = Some st' →
  ∃ l, r_log st' = r_log st ++ l ∧ Forall row_event l.
Proof.
  revert st. induction n as [|n IH]; intros st.
  - intros [= <-]. exists []. by rewrite app_nil_r.
  - simpl.
    destruct (cupsRasterReadPixels _ _ _) as [[[ret buf] ras']|]; [|done].
    simpl. destruct (ret =? 0).
    + intros [= <-]. simpl. eexists. rewrite <- app_assoc.
      split; [done|]. by repeat constructor.
    + destruct (convert_line_to_1bit _ _ _) as [line_out|]; [|done]. simpl.
      destruct (memcpy _ _ _ _) as [page_data|]; [|done]. simpl.
      intros Hrun. apply IH in Hrun as (l & -> & Hl). simpl.
      eexists. rewrite <- app_assoc. split; [done|].
      apply Forall_app. split; [|done]. by repeat constructor.
Qed.

Lemma failed_malloc_row_events l :
  Forall row_event l → existsb failed_malloc l = false.
Proof.
  induction 1 as [|e l He _ IH]; [done|]. simpl. rewrite IH.
  by destruct e as [[]| | | | |? []| | | |].
Qed.

Lemma send_raster_events data w h r :
  send_raster data w h = Some r →
  existsb failed_malloc r = false ∧ ∃ bs, stdout_of r = bs.
Proof.
  unfold send_raster, fwrite. case_bool_decide; [|done].
  simpl. intros [= <-]. split; [done|]. by eexists.
Qed.

(** How a turn of the page loop ends: [return 1] comes with a failed
    allocation and without output; going on comes without one. *)
Lemma page_body_flow hdr ras hp page log fl :
  page_body hdr ras hp page = Some (log, fl) →
  match fl with
  | Return code =>
      code = 1 ∧ stdout_of log = [] ∧ existsb failed_malloc log = true
  | Next _ _ => existsb failed_malloc log = false
  end.
Proof.
  unfold page_body. case_bool_decide.
  { by intros [= <- <-]. }
  unfold malloc.
  destruct hp as [|[g0|] [|[g1|] [|[g2|] hp']]];
    simpl; try (by intros [= <- <-]).
  destruct (read_rows _ _ _ _) as [st|] eqn:Hrun; [|done]. simpl.
  destruct (send_raster _ _ _) as [r|] eqn:Hr; [|done]. simpl.
  intros [= <- <-].
  apply read_rows_log in Hrun as (l & Hlog & Hl). simpl in Hlog.
  apply send_raster_events in Hr as [Hr _].
  rewrite Hlog. simpl. rewrite existsb_app, (failed_malloc_row_events l Hl).
  simpl. by rewrite existsb_app, Hr.
Qed.

Lemma page_loop_run_pages fuel ras hp page :
  (length (ras_pages ras) < fuel)%nat →
  page_loop fuel ras hp page = run_pages (ras_pages ras) hp page.
Proof.
  revert ras hp page. induction fuel as [|fuel IH]; intros ras hp page Hf;
    [lia|].
  simpl. unfold cupsRasterReadHeader2.
  destruct (ras_pages ras) as [|p ps] eqn:Hpages; [done|]. simpl.
  change {| ras_pixels := pg_pixels p; ras_pages := ps |}
    with (set_pages ps {| ras_pixels := pg_pixels p; ras_pages := [] |}).
  rewrite page_body_set_pages.
  destruct (page_body _ _ _ _) as [[log [ras2 hp2|code]]|]; [|done..].
  simpl. by rewrite IH by (simpl in *; lia).
Qed.

Global Arguments page_trace : simpl never.
Global Arguments stdout_of : simpl never.

Lemma page_sane_printable hdr :
  page_sane hdr → ¬ page_empty hdr → page_printable hdr.
Proof.
  unfold page_sane, page_empty, page_printable.
  intros (Hw & Hh & [He|Hs]) Hne; [done|]. lia.
Qed.

Lemma heap_at_cases hp :
  allocated3 hp
  ∨ (¬ allocated3 hp
     ∧ (heap_at hp 0 = None ∨ heap_at hp 1 = None ∨ heap_at hp 2 = None)).
Proof.
  unfold allocated3.
  destruct (heap_at hp 0), (heap_at hp 1), (heap_at hp 2);
    try (by left); right; (split; [by intros ([??]&[??]&[??])|]); auto.
Qed.

Lemma stdout_of_cons_other e t :
  (∀ bs, e ≠ EStdout bs) → stdout_of (e :: t) = stdout_of t.
Proof. intros He. destruct e; try done. by destruct (He bytes). Qed.

Lemma run_pages_next p ps hp page log ras2 hp2 :
  page_body (pg_header p) {| ras_pixels := pg_pixels p; ras_pages := [] |}
            hp (wrap_i32 (page + 1)) = Some (log, Next ras2 hp2) →
  run_pages (p :: ps) hp page
  = (λ '(log2, code), (EReadHeader true :: log ++ log2, code))
    <$> run_pages ps hp2 (wrap_i32 (page + 1)).
Proof.
  intros Hbody. cbn [run_pages]. rewrite Hbody. cbn [mbind option_bind].
  by destruct (run_pages ps hp2 (wrap_i32 (page + 1))) as [[log2 c]|].
Qed.

Lemma run_pages_return p ps hp page log code :
  page_body (pg_header p) {| ras_pixels := pg_pixels p; ras_pages := [] |}
            hp (wrap_i32 (page + 1)) = Some (log, Return code) →
  run_pages (p :: ps) hp page = Some (EReadHeader true :: log, code).
Proof. intros Hbody. cbn [run_pages]. by rewrite Hbody. Qed.

Lemma run_pages_undefined p ps hp page :
  page_body (pg_header p) {| ras_pixels := pg_pixels p; ras_pages := [] |}
            hp (wrap_i32 (page + 1)) = None →
  run_pages (p :: ps) hp page = None.
Proof. intros Hbody. cbn [run_pages]. by rewrite Hbody. Qed.

Lemma observable_next log (r : option (list event * Z)) :
  observable ((λ '(log2, code), (EReadHeader true :: log ++ log2, code)) <$> r)
  = (λ '(out, code), (stdout_of log ++ out, code)) <$> observable r.
Proof.
  destruct r as [[log2 c]|]; [|done]. unfold observable. simpl. f_equal.
  by rewrite stdout_of_cons_other, stdout_of_app.
Qed.

Lemma run_pages_sane pages hp page :
  Forall (λ p, page_sane (pg_header p)) pages →
  is_Some (run_pages pages hp page).
Proof.
  intros Hs. revert hp page.
  induction Hs as [|p ps Hp _ IH]; intros hp page; [done|].
  destruct (decide (page_empty (pg_header p))) as [He|Hne].
  - rewrite (run_pages_next _ _ _ _ _ _ _ (page_body_empty _ _ _ _ He)).
    by apply fmap_is_Some.
  - destruct (heap_at_cases hp) as [(H0 & H1 & H2)|[Hna Hf]].
    + destruct (page_body_printable (pg_header p)
                  {| ras_pixels := pg_pixels p; ras_pages := [] |} hp
                  (wrap_i32 (page + 1)))
        as (l & y & data & ras' & Hbody & _);
        [by apply page_sane_printable|done..|].
      rewrite (run_pages_next _ _ _ _ _ _ _ Hbody). by apply fmap_is_Some.
    + destruct (page_body_alloc_failure (pg_header p)
                  {| ras_pixels := pg_pixels p; ras_pages := [] |} hp
                  (wrap_i32 (page + 1)) Hne Hf)
        as (s0 & s1 & s2 & b0 & b1 & b2 & Hbody & _).
      by rewrite (run_pages_return _ _ _ _ _ _ Hbody).
Qed.

Lemma run_pages_exit pages hp page t code :
  run_pages pages hp page = Some (t, code) →
  (code = 0 ∨ code = 1) ∧ (code = 1 ↔ existsb failed_malloc t = true).
Proof.
  revert hp page t code.
  induction pages as [|p ps IH]; intros hp page t code.
  - intros [= <- <-]. simpl. split; [by left|]. split; [lia|congruence].
  - destruct (page_body (pg_header p)
                {| ras_pixels := pg_pixels p; ras_pages := [] |} hp
                (wrap_i32 (page + 1))) as [[log [ras2 hp2|c]]|] eqn:Hbody.
    + rewrite (run_pages_next _ _ _ _ _ _ _ Hbody).
      apply page_body_flow in Hbody.
      destruct (run_pages ps hp2 _) as [[log2 c2]|] eqn:Hrest; [|done].
      simpl. intros [= <- <-]. apply IH in Hrest as [Hc Hiff].
      split; [done|]. simpl. by rewrite existsb_app, Hbody.
    + rewrite (run_pages_return _ _ _ _ _ _ Hbody).
      apply page_body_flow in Hbody as (-> & _ & Hm).
      intros [= <- <-]. split; [by right|]. simpl. by rewrite Hm.
    + by rewrite (run_pages_undefined _ _ _ _ Hbody).
Qed.

Lemma run_pages_complete pages hp page :
  Forall (λ p, page_sane (pg_header p) ∧ page_complete p) pages →
  observable (run_pages pages hp page) = Some (run_model pages hp).
Proof.
  intros Hs. revert hp page.
  induction Hs as [|p ps [Hp Hc] _ IH]; intros hp page; [done|].
  cbn [run_model]. case_bool_decide as He.
  - rewrite (run_pages_next _ _ _ _ _ _ _ (page_body_empty _ _ _ _ He)).
    rewrite observable_next, IH. simpl. by destruct (run_model ps hp).
  - destruct (heap_at_cases hp) as [(H0 & H1 & H2)|[Hna Hf]].
    + destruct (page_body_printable (pg_header p)
                  {| ras_pixels := pg_pixels p; ras_pages := [] |} hp
                  (wrap_i32 (page + 1)))
        as (l & y & data & ras' & Hbody & Hl & _ & _ & Hfull);
        [by apply page_sane_printable|done..|].
      destruct Hfull as (_ & -> & _); [done|].
      rewrite (run_pages_next _ _ _ _ _ _ _ Hbody).
      rewrite observable_next, IH, stdout_of_page_trace by done.
      rewrite bool_decide_eq_true_2 by done.
      destruct (run_model ps (heap_after 3 hp)) as [out c]. simpl.
      unfold page_bytes. by rewrite bool_decide_eq_false_2 by done.
    + destruct (page_body_alloc_failure (pg_header p)
                  {| ras_pixels := pg_pixels p; ras_pages := [] |} hp
                  (wrap_i32 (page + 1)) He Hf)
        as (s0 & s1 & s2 & b0 & b1 & b2 & Hbody & _).
      rewrite (run_pages_return _ _ _ _ _ _ Hbody).
      by rewrite bool_decide_eq_false_2 by done.
Qed.

Lemma run_model_allocations pages hp1 hp2 :
  (∀ i, is_Some (heap_at hp1 i) ↔ is_Some (heap_at hp2 i)) →
  run_model pages hp1 = run_model pages hp2.
Proof.
  revert hp1 hp2. induction pages as [|p ps IH]; intros hp1 hp2 Hag; [done|].
  simpl. case_bool_decide; [by apply IH|].
  rewrite (IH (heap_after 3 hp1) (heap_after 3 hp2)).
  2:{ intros i. unfold heap_after. rewrite !heap_at_drop. apply Hag. }
  rewrite (bool_decide_ext (allocated3 hp1) (allocated3 hp2)); [done|].
  unfold allocated3. by rewrite !Hag.
Qed.

Lemma page_bytes_empty p : page_empty (pg_header p) → page_bytes p = [].
Proof. intros He. unfold page_bytes. by rewrite bool_decide_eq_true_2. Qed.

Lemma printed_cons p ps :
  printed (p :: ps)
  = if bool_decide (page_empty (pg_header p)) then printed ps
    else S (printed ps).
Proof.
  unfold printed. rewrite filter_cons.
  case_bool_decide; case_decide; done.
Qed.

Lemma run_model_succeed pages hp :
  (∀ i, (i < 3 * printed pages)%nat → is_Some (heap_at hp i)) →
  run_model pages hp = (pages ≫= page_bytes, 0).
Proof.
  revert hp. induction pages as [|p ps IH]; intros hp Hok; [done|].
  cbn [run_model]. rewrite bind_cons. rewrite printed_cons in Hok.
  case_bool_decide as He.
  - rewrite page_bytes_empty by done. by apply IH.
  - rewrite bool_decide_eq_true_2
      by (unfold allocated3; split_and!; apply Hok; lia).
    rewrite IH; [done|].
    intros i Hi. unfold heap_after. rewrite heap_at_drop. apply Hok. lia.
Qed.

(** ** Pages the output does not depend on *)

Lemma page_body_page hdr ras hp p1 p2 :
  match page_body hdr ras hp p1, page_body hdr ras hp p2 with
  | Some (l1, f1), Some (l2, f2) => stdout_of l1 = stdout_of l2 ∧ f1 = f2
  | None, None => True
  | _, _ => False
  end.
Proof.
  unfold page_body. case_bool_decide; [done|].
  destruct (malloc hp _) as [[line_in|] hp1],
    (malloc hp1 _) as [[line_out|] hp2],
    (malloc hp2 _) as [[page_data|] hp3]; try done.
  destruct (read_rows _ _ _ _) as [st|]; [|done].
  cbn [mbind option_bind].
  destruct (send_raster _ _ _) as [r|]; [|done].
  cbn [mbind option_bind]. split; [|done].
  by rewrite !stdout_of_app.
Qed.

Lemma observable_return log code :
  observable (Some (EReadHeader true :: log, code))
  = Some (stdout_of log, code).
Proof. done. Qed.

Lemma run_pages_page pages hp p1 p2 :
  observable (run_pages pages hp p1) = observable (run_pages pages hp p2).
Proof.
  revert hp p1 p2. induction pages as [|p ps IH]; intros hp p1 p2; [done|].
  pose proof (page_body_page (pg_header p)
                {| ras_pixels := pg_pixels p; ras_pages := [] |} hp
                (wrap_i32 (p1 + 1)) (wrap_i32 (p2 + 1))) as Hpage.
  destruct (page_body _ _ _ (wrap_i32 (p1 + 1)))
    as [[l1 [r1 h1|c1]]|] eqn:H1,
    (page_body _ _ _ (wrap_i32 (p2 + 1)))
    as [[l2 [r2 h2|c2]]|] eqn:H2; try done;
    try (by destruct Hpage).
  - destruct Hpage as [Hout [= -> ->]].
    rewrite (run_pages_next _ _ _ _ _ _ _ H1),
      (run_pages_next _ _ _ _ _ _ _ H2), !observable_next, Hout.
    by rewrite (IH h2 (wrap_i32 (p1 + 1)) (wrap_i32 (p2 + 1))).
  - destruct Hpage as [Hout [= ->]].
    rewrite (run_pages_return _ _ _ _ _ _ H1),
      (run_pages_return _ _ _ _ _ _ H2), !observable_return.
    by rewrite Hout.
  - by rewrite (run_pages_undefined _ _ _ _ H1),
      (run_pages_undefined _ _ _ _ H2).
Qed.

Lemma run_pages_skip_empty pages hp p1 p2 :
  observable (run_pages pages hp p1)
  = observable
      (run_pages (filter (λ p, ¬ page_empty (pg_header p)) pages) hp p2).
Proof.
  revert hp p1 p2. induction pages as [|p ps IH]; intros hp p1 p2; [done|].
  rewrite filter_cons. case_decide as He.
  - pose proof (page_body_page (pg_header p)
                  {| ras_pixels := pg_pixels p; ras_pages := [] |} hp
                  (wrap_i32 (p1 + 1)) (wrap_i32 (p2 + 1))) as Hpage.
    destruct (page_body _ _ _ (wrap_i32 (p1 + 1)))
      as [[l1 [r1 h1|c1]]|] eqn:H1,
      (page_body _ _ _ (wrap_i32 (p2 + 1)))
      as [[l2 [r2 h2|c2]]|] eqn:H2; try done;
      try (by destruct Hpage).
    + destruct Hpage as [Hout [= -> ->]].
      rewrite (run_pages_next _ _ _ _ _ _ _ H1),
        (run_pages_next _ _ _ _ _ _ _ H2), !observable_next, Hout.
      by rewrite (IH h2 (wrap_i32 (p1 + 1)) (wrap_i32 (p2 + 1))).
    + destruct Hpage as [Hout [= ->]].
      rewrite (run_pages_return _ _ _ _ _ _ H1),
        (run_pages_return _ _ _ _ _ _ H2), !observable_return.
      by rewrite Hout.
    + by rewrite (run_pages_undefined _ _ _ _ H1),
        (run_pages_undefined _ _ _ _ H2).
  - assert (Hempty : page_empty (pg_header p)).
    { unfold page_empty in *. lia. }
    rewrite (run_pages_next _ _ _ _ _ _ _
               (page_body_empty _ _ _ _ Hempty)), observable_next.
    rewrite (IH hp (wrap_i32 (p1 + 1)) p2).
    by destruct (observable _) as [[out c]|].
Qed.

(** ** Pages written before an allocation fails *)

Lemma flushed_after_page hdr page l y data t :
  flushed t → flushed (EReadHeader true :: page_trace hdr page l y data ++ t).
Proof.
  intros [Hnone|(t0 & t2 & -> & Ht2)]; right.
  - exists (EReadHeader true
            :: [ EStderr (DbgPage page (cupsWidth hdr) (cupsHeight hdr)
                            (cupsBitsPerPixel hdr) (cupsColorSpace hdr)
                            (cupsMediaType hdr));
                 EMalloc (cupsBytesPerLine hdr) true;
                 EMalloc (stride (cupsWidth hdr)) true;
                 EMalloc (stride (cupsWidth hdr) * cupsHeight hdr) true ]
            ++ l
            ++ [ EStderr (DbgReadLines y);
                 EStdout [0x1b; 0x4e; 0x0d; 5];
                 EStdout [0x1b; 0x4e; 0x04; 10];
                 EStdout [0x1f; 0x11; media_slot hdr];
                 EStdout [0x1d; 0x76; 0x30; 0];
                 EStdout (le16 (stride (cupsWidth hdr)));
                 EStdout (le16 (cupsHeight hdr));
                 EStdout data ]),
      ([EStderr (DbgPageSent page); EFree; EFree; EFree] ++ t).
    split.
    + unfold page_trace. simpl. by rewrite <- !app_assoc.
    + by rewrite stdout_of_app, Hnone.
  - exists (EReadHeader true :: page_trace hdr page l y data ++ t0), t2.
    split; [|done]. simpl. by rewrite <- !app_assoc.
Qed.

Lemma flushed_after_empty d1 d2 t :
  flushed t → flushed (EReadHeader true :: [EStderr d1; EStderr d2] ++ t).
Proof.
  intros [Hnone|(t0 & t2 & -> & Ht2)].
  - left. by rewrite stdout_of_cons_other, stdout_of_app, Hnone.
  - right. exists (EReadHeader true :: [EStderr d1; EStderr d2] ++ t0), t2.
    done.
Qed.

Lemma fmap_trace_compose a b (r : option (list event * Z)) :
  (λ '(l2, c), (EReadHeader true :: a ++ l2, c))
    <$> ((λ '(t, c), (b ++ t, c)) <$> r)
  = (λ '(t, c), ((EReadHeader true :: a ++ b) ++ t, c)) <$> r.
Proof. destruct r as [[t c]|]; [|done]. cbn. by rewrite <- app_assoc. Qed.

Lemma fmap_trace_Some a b l (code : Z) :
  (λ '(l2, c), (EReadHeader true :: a ++ l2, c)) <$> Some (b ++ l, code)
  = Some ((EReadHeader true :: a ++ b) ++ l, code).
Proof. cbn. by rewrite <- app_assoc. Qed.

(** The page loop over a prefix of sane pages whose buffers are all
    allocated: it writes each page up to its flushed footer and goes on
    with the rest of the stream. *)
Lemma run_pages_prefix pre rest hp page :
  Forall (λ p, page_sane (pg_header p)) pre →
  (∀ i, (i < 3 * printed pre)%nat → is_Some (heap_at hp i)) →
  ∃ t_pre page',
    run_pages pre hp page
    = Some (t_pre ++ [EReadHeader false; ERasterClose;
                      EStderr (DbgComplete page')], 0)
    ∧ run_pages (pre ++ rest) hp page
      = (λ '(t, code), (t_pre ++ t, code))
        <$> run_pages rest (heap_after (3 * printed pre) hp) page'
    ∧ flushed t_pre
    ∧ existsb failed_malloc t_pre = false.
Proof.
  intros Hs. revert hp page.
  induction Hs as [|p ps Hp _ IH]; intros hp page Hok.
  - exists [], page. split; [done|]. split; [|split; [by left|done]].
    change (heap_after (3 * printed []) hp) with hp. simpl.
    by destruct (run_pages rest hp page) as [[t c]|].
  - rewrite printed_cons in Hok. rewrite printed_cons.
    rewrite <- app_comm_cons. case_bool_decide as He.
    + pose proof (page_body_empty (pg_header p)
                    {| ras_pixels := pg_pixels p; ras_pages := [] |} hp
                    (wrap_i32 (page + 1)) He) as Hbody.
      destruct (IH hp (wrap_i32 (page + 1)) Hok)
        as (t' & page' & Hpre & Hall & Hfl & Hm).
      exists (EReadHeader true
              :: [EStderr (DbgPage (wrap_i32 (page + 1))
                             (cupsWidth (pg_header p))
                             (cupsHeight (pg_header p))
                             (cupsBitsPerPixel (pg_header p))
                             (cupsColorSpace (pg_header p))
                             (cupsMediaType (pg_header p)));
                  EStderr DbgEmptyPage] ++ t'), page'.
      rewrite !(run_pages_next _ _ _ _ _ _ _ Hbody), Hpre, Hall.
      split; [apply fmap_trace_Some|]. split; [|split].
      * apply fmap_trace_compose.
      * by apply flushed_after_empty.
      * done.
    + assert (Ha : allocated3 hp) by (split_and!; apply Hok; lia).
      destruct Ha as (H0 & H1 & H2).
      destruct (page_body_printable (pg_header p)
                  {| ras_pixels := pg_pixels p; ras_pages := [] |} hp
                  (wrap_i32 (page + 1)))
        as (l & y & data & ras' & Hbody & Hl & _);
        [by apply page_sane_printable|done..|].
      destruct (IH (heap_after 3 hp) (wrap_i32 (page + 1)))
        as (t' & page' & Hpre & Hall & Hfl & Hm).
      { intros i Hi. unfold heap_after. rewrite heap_at_drop. apply Hok. lia. }
      exists (EReadHeader true
              :: page_trace (pg_header p) (wrap_i32 (page + 1)) l y data
                 ++ t'), page'.
      rewrite !(run_pages_next _ _ _ _ _ _ _ Hbody), Hpre, Hall.
      replace (heap_after (3 * printed ps) (heap_after 3 hp))
        with (heap_after (3 * S (printed ps)) hp).
      2:{ unfold heap_after. rewrite drop_drop. f_equal. lia. }
      split; [apply fmap_trace_Some|]. split; [|split].
      * apply fmap_trace_compose.
      * by apply flushed_after_page.
      * cbn [existsb failed_malloc orb].
        rewrite existsb_app, Hm, orb_false_r.
        unfold page_trace. cbn [app existsb failed_malloc orb].
        rewrite existsb_app, (failed_malloc_row_events l Hl). done.
Qed.

(** ** The process *)

Lemma main_usage e :
  argument_error e →
  main e
  = Some ([EStderr DbgStarting; EStderr (DbgArgc (argc e));
           EStderr (ErrUsage (default "(null)" (e_argv e !! 0%nat)))], 1).
Proof.
  intros Ha. unfold main. fold (argc e).
  by rewrite bool_decide_eq_true_2.
Qed.

Lemma main_open_error e :
  ¬ argument_error e → input_open_error e →
  main e = Some (startup_log e ++ [EStderr ErrOpenInput], 1).
Proof.
  intros Ha [H7 Hfd]. unfold main, startup_log. fold (argc e).
  rewrite bool_decide_eq_false_2 by done.
  unfold input_fd in *. rewrite !(bool_decide_eq_true_2 (argc e = 7)) in * by done.
  by rewrite bool_decide_eq_true_2.
Qed.

Lemma main_raster_open e :
  ¬ argument_error e → ¬ input_open_error e →
  main e = main_raster e (startup_log e) (input_fd e).
Proof.
  intros Ha Ho. unfold main, startup_log, input_open_error in *.
  fold (argc e). rewrite bool_decide_eq_false_2 by done.
  unfold input_fd in *. case_bool_decide as H7.
  - rewrite bool_decide_eq_false_2 by tauto. done.
  - by rewrite app_nil_r.
Qed.

Lemma main_raster_error e :
  raster_open_error e →
  main e
  = Some (startup_log e
          ++ [ERasterOpen (input_fd e) false; EStderr ErrRasterOpen], 1).
Proof.
  intros (Ha & Ho & Hr). rewrite main_raster_open by done.
  unfold main_raster. by rewrite Hr.
Qed.

Lemma main_run e ras :
  ¬ argument_error e → ¬ input_open_error e →
  e_raster_open e (input_fd e) = Some ras →
  main e
  = (λ '(t, code),
       (startup_log e
        ++ [ERasterOpen (input_fd e) true; EStderr DbgRasterOpened] ++ t,
        code))
    <$> run_pages (ras_pages ras) (e_heap e) 0.
Proof.
  intros Ha Ho Hr. rewrite main_raster_open by done.
  unfold main_raster. rewrite Hr, page_loop_run_pages by lia.
  by destruct (run_pages _ _ _) as [[t c]|].
Qed.

Lemma stdout_of_startup_log e : stdout_of (startup_log e) = [].
Proof. unfold startup_log. by case_bool_decide. Qed.

Lemma observable_main_run e ras :
  ¬ argument_error e → ¬ input_open_error e →
  e_raster_open e (input_fd e) = Some ras →
  observable (main e) = observable (run_pages (ras_pages ras) (e_heap e) 0).
Proof.
  intros Ha Ho Hr. rewrite (main_run e ras) by done.
  destruct (run_pages _ _ _) as [[t c]|]; [|done].
  change (Some (stdout_of (startup_log e
                           ++ [ERasterOpen (input_fd e) true;
                               EStderr DbgRasterOpened] ++ t), c)
          = Some (stdout_of t, c)).
  by rewrite !stdout_of_app, stdout_of_startup_log.
Qed.

Lemma page_bytes_spec p :
  0 ≤ cupsMediaType (pg_header p) < 256 → page_bytes p = spec_page_bytes p.
Proof.
  intros Hmt. unfold page_bytes, spec_page_bytes, media_slot.
  case_bool_decide; [done|].
  rewrite Z.mod_small by (case_bool_decide; lia). done.
Qed.

Lemma allocation_failure_existsb t :
  allocation_failure t ↔ existsb failed_malloc t = true.
Proof.
  unfold allocation_failure. rewrite existsb_exists. split.
  - intros [size Hin]. exists (EMalloc size false).
    split; [by apply list_elem_of_In|done].
  - intros (ev & Hin & Hf). destruct ev as [| | | | |size []| | | |]; try done.
    exists size. by apply list_elem_of_In.
Qed.

Lemma existsb_startup_log e : existsb failed_malloc (startup_log e) = false.
Proof. unfold startup_log. by case_bool_decide. Qed.

Lemma count_newlines_app s1 s2 :
  count_newlines (s1 +:+ s2) = (count_newlines s1 + count_newlines s2)%nat.
Proof.
  induction s1 as [|c s1 IH]; [done|]. simpl. rewrite IH. lia.
Qed.

Lemma main_exit_codes e t code :
  main e = Some (t, code) →
  (code = 0 ∨ code = 1)
  ∧ (code = 1 ↔ argument_error e ∨ input_open_error e
                 ∨ raster_open_error e ∨ allocation_failure t).
Proof.
  intros Hmain. rewrite allocation_failure_existsb.
  destruct (decide (argument_error e)) as [Ha|Ha].
  { rewrite main_usage in Hmain by done. injection Hmain as <- <-.
    split; [by right|]. split; [by left|done]. }
  destruct (decide (input_open_error e)) as [Ho|Ho].
  { rewrite main_open_error in Hmain by done. injection Hmain as <- <-.
    split; [by right|]. split; [by right; left|done]. }
  destruct (e_raster_open e (input_fd e)) as [ras|] eqn:Hr.
  - rewrite (main_run e ras) in Hmain by done.
    destruct (run_pages _ _ _) as [[t' c]|] eqn:Hrun; [|done].
    injection Hmain as <- <-.
    apply run_pages_exit in Hrun as [Hc Hiff]. split; [done|].
    assert (Hlog : existsb failed_malloc
              (startup_log e ++ [ERasterOpen (input_fd e) true;
                                 EStderr DbgRasterOpened] ++ t')
            = existsb failed_malloc t')
      by (by rewrite !existsb_app, existsb_startup_log).
    unfold startup_log in Hlog. simpl in Hlog. simpl. rewrite Hlog, Hiff.
    unfold raster_open_error. rewrite Hr. split; [tauto|].
    by intros [?|[?|[(_ & _ & ?)|?]]].
  - assert (Hre : raster_open_error e) by done.
    rewrite main_raster_error in Hmain by done. injection Hmain as <- <-.
    split; [by right|]. split; [by right; right; left|done].
Qed.

Lemma main_sane e :
  (∀ fd ras, e_raster_open e fd = Some ras →
             Forall (λ p, page_sane (pg_header p)) (ras_pages ras)) →
  is_Some (main e).
Proof.
  intros Hs.
  destruct (decide (argument_error e)) as [Ha|Ha].
  { by rewrite main_usage. }
  destruct (decide (input_open_error e)) as [Ho|Ho].
  { by rewrite main_open_error. }
  destruct (e_raster_open e (input_fd e)) as [ras|] eqn:Hr.
  - rewrite (main_run e ras) by done. apply fmap_is_Some.
    apply run_pages_sane. by apply (Hs (input_fd e)).
  - by rewrite main_raster_error.
Qed.

Lemma observable_without_empty_pages e :
  observable (main e) = observable (main (without_empty_pages e)).
Proof.
  destruct (decide (argument_error e)) as [Ha|Ha].
  { by rewrite !main_usage. }
  destruct (decide (input_open_error e)) as [Ho|Ho].
  { by rewrite !main_open_error. }
  destruct (e_raster_open e (input_fd e)) as [ras|] eqn:Hr.
  - rewrite (observable_main_run e ras) by done.
    erewrite (observable_main_run (without_empty_pages e)); [|done|done|].
    2:{ unfold without_empty_pages. simpl.
        change (input_fd _) with (input_fd e). by rewrite Hr. }
    apply run_pages_skip_empty.
  - rewrite (main_raster_error e) by done.
    rewrite (main_raster_error (without_empty_pages e)); [done|].
    split; [done|]. split; [done|]. simpl.
    change (input_fd _) with (input_fd e). by rewrite Hr.
Qed.

Lemma flushed_wrap a t b :
  stdout_of a = [] → stdout_of b = [] → flushed t → flushed (a ++ t ++ b).
Proof.
  intros Ha Hb [Hnone|(t0 & t2 & -> & Ht2)].
  - left. by rewrite !stdout_of_app, Ha, Hb, Hnone.
  - right. exists (a ++ t0), (t2 ++ b). split.
    + by rewrite <- !app_assoc.
    + by rewrite stdout_of_app, Ht2, Hb.
Qed.

Lemma bind_page_bytes_spec pages :
  Forall (λ p, 0 ≤ cupsMediaType (pg_header p) < 256) pages →
  pages ≫= page_bytes = pages ≫= spec_page_bytes.
Proof.
  induction 1 as [|p ps Hp _ IH]; [done|].
  by rewrite !bind_cons, IH, page_bytes_spec.
Qed.

(** The three frames of a printable page whose buffers are allocated. *)
Lemma page_body_frames hdr ras hp page :
  page_sane hdr → ¬ page_empty hdr → allocated3 hp →
  ∃ log ras' data,
    page_body hdr ras hp page = Some (log, Next ras' (heap_after 3 hp))
    ∧ stdout_of log
      = [0x1b; 0x4e; 0x0d; 5; 0x1b; 0x4e; 0x04; 10; 0x1f; 0x11;
         media_slot hdr]
        ++ spec_raster_frame (stride (cupsWidth hdr)) (cupsHeight hdr) data
        ++ spec_footer_frame
    ∧ blen data = stride (cupsWidth hdr) * cupsHeight hdr.
Proof.
  intros Hs Hne (H0 & H1 & H2).
  destruct (page_body_printable hdr ras hp page)
    as (l & y & data & ras' & Hbody & Hl & Hdata & _);
    [by apply page_sane_printable|done..|].
  exists (page_trace hdr page l y data), ras', data.
  split; [done|]. split; [by apply stdout_of_page_trace|done].
Qed.

Lemma string_app_assoc (s1 s2 s3 : string) :
  (s1 +:+ s2) +:+ s3 = s1 +:+ (s2 +:+ s3).
Proof.
  induction s1 as [|c s1 IH]; [done|].
  change (String c ((s1 +:+ s2) +:+ s3) = String c (s1 +:+ (s2 +:+ s3))).
  by rewrite IH.
Qed.

Lemma observable_Some t code :
  observable (Some (t, code)) = Some (stdout_of t, code).
Proof. done. Qed.

(** * More of the filter: helper lemmas *)

(** ** The thresholder on any destination buffer *)

Lemma blen_malloc_zero (n : Z) :
  0 ≤ n → blen (replicate (Z.to_nat n) 0) = n.
Proof. intros Hn. unfold blen. rewrite length_replicate. lia. Qed.

Lemma for_loop_add {S : Type} (n m : nat) (i : Z) body (s : S) :
  for_loop (n + m) i body s
  = s' ← for_loop n i body s; for_loop m (i + Z.of_nat n) body s'.
Proof.
  revert i s. induction n as [|n IH]; intros i s.
  - simpl. by rewrite Z.add_0_r.
  - simpl. destruct (body i s) as [s1|]; [|done]. simpl.
    rewrite IH.
    by replace (i + 1 + Z.of_nat n)
      with (i + Z.pos (Pos.of_succ_nat n)) by lia.
Qed.

Lemma convert_pixel_blen r x d d' :
  convert_pixel r x d = Some d' → blen d' = blen d.
Proof.
  unfold convert_pixel, store. destruct (load r x) as [s|]; [|done]. simpl.
  destruct (s <? 128); [|by intros [= <-]].
  destruct (load d (x ÷ 8)) as [b|]; [|done]. simpl.
  case_bool_decide; [|done]. intros [= <-].
  unfold blen. by rewrite length_insert.
Qed.

Lemma convert_pixel_app r x d tl :
  0 ≤ x → x `div` 8 < blen d →
  convert_pixel r x (d ++ tl) = (λ o, o ++ tl) <$> convert_pixel r x d.
Proof.
  intros Hx Hi. unfold convert_pixel.
  rewrite Z.quot_div_nonneg by lia.
  destruct (load r x) as [s|]; [|done]. simpl.
  destruct (s <? 128); [|done].
  assert (0 ≤ x `div` 8) by (Z.div_mod_to_equations; lia).
  rewrite !load_Some by lia.
  rewrite lookup_app_l by (unfold blen in Hi; lia).
  destruct (d !! Z.to_nat (x `div` 8)) as [b|]; [|done]. simpl.
  rewrite !store_Some by (rewrite ?blen_app; pose proof (blen_nonneg tl); lia).
  simpl. f_equal. apply insert_app_l. unfold blen in Hi. lia.
Qed.

Lemma convert_loop_app r tl (n : nat) (i : Z) d :
  0 ≤ i → (i + Z.of_nat n + 7) `div` 8 ≤ blen d →
  for_loop n i (convert_pixel r) (d ++ tl)
  = (λ o, o ++ tl) <$> for_loop n i (convert_pixel r) d.
Proof.
  revert i d. induction n as [|n IH]; intros i d Hi Hlen; [done|].
  simpl. rewrite convert_pixel_app by (Z.div_mod_to_equations; lia).
  destruct (convert_pixel r i d) as [d1|] eqn:Hstep; [|done]. simpl.
  apply convert_pixel_blen in Hstep.
  apply IH; [lia|]. rewrite Hstep.
  by replace (i + 1 + Z.of_nat n) with (i + Z.of_nat (S n)) by lia.
Qed.

(** [convert_line_to_1bit] on an output buffer longer than the row. *)
Lemma convert_line_to_1bit_app r d tl w :
  0 ≤ w ≤ blen r → w + 7 ≤ INT_MAX → blen d = stride w →
  convert_line_to_1bit r (d ++ tl) w = Some (spec_output_row w r ++ tl).
Proof.
  intros Hw Hmax Hd.
  pose proof (convert_line_to_1bit_spec r (replicate (Z.to_nat (stride w)) 0) w
                Hw Hmax) as Hspec.
  pose proof (stride_nonneg w) as Hs.
  rewrite blen_malloc_zero in Hspec by lia. specialize (Hspec eq_refl).
  unfold convert_line_to_1bit in *.
  rewrite wrap_i32_id in * by (unfold INT_MAX in *; lia).
  rewrite Z.quot_div_nonneg in * by lia. fold (stride w) in *.
  rewrite memset_Some in Hspec
    by (unfold blen; rewrite length_replicate; lia).
  rewrite memset_Some by (rewrite blen_app; pose proof (blen_nonneg tl); lia).
  simpl in *.
  rewrite drop_ge, app_nil_r in Hspec by (rewrite length_replicate; lia).
  rewrite drop_app_length' by (unfold blen in Hd; lia).
  rewrite convert_loop_app, Hspec; [done|lia|].
  unfold blen. rewrite length_replicate. rewrite Z.add_0_l, !Z2Nat.id by lia.
  done.
Qed.

Lemma spec_output_row_ext w r r' :
  (∀ x, 0 ≤ x < w → spec_burn w r x = spec_burn w r' x) →
  spec_output_row w r = spec_output_row w r'.
Proof.
  intros Hext. unfold spec_output_row. apply list_fmap_ext.
  intros k i Hi. apply lookup_seq in Hi as [-> Hk].
  assert (Hall : ∀ x, spec_burn w r x = spec_burn w r' x).
  { intros x. destruct (decide (0 ≤ x < w)) as [Hx|Hx]; [by apply Hext|].
    unfold spec_burn. by rewrite !(bool_decide_eq_false_2 (0 ≤ x < w)). }
  unfold spec_output_byte. simpl. by rewrite !Hall.
Qed.

Lemma spec_output_byte_light w r i :
  (∀ k, 0 ≤ k < 8 → spec_burn w r (8 * i + k) = false) →
  spec_output_byte w r i = 0.
Proof.
  intros H. unfold spec_output_byte. simpl.
  by rewrite !H by lia.
Qed.

Lemma spec_output_byte_dark w r i :
  (∀ k, 0 ≤ k < 8 → spec_burn w r (8 * i + k) = true) →
  spec_output_byte w r i = 255.
Proof.
  intros H. unfold spec_output_byte. simpl.
  by rewrite !H by lia.
Qed.

Lemma drop_split (l : list Z) (n : Z) :
  0 ≤ n ≤ blen l → ∃ d tl, l = d ++ tl ∧ blen d = n ∧ tl = drop (Z.to_nat n) l.
Proof.
  intros Hn. exists (take (Z.to_nat n) l), (drop (Z.to_nat n) l).
  split; [by rewrite take_drop|]. split; [by apply blen_take|done].
Qed.

Lemma convert_pixel_overread r x d :
  blen r ≤ x → convert_pixel r x d = None.
Proof.
  intros Hx. unfold convert_pixel, load. pose proof (blen_nonneg r).
  rewrite (bool_decide_eq_true_2 (0 ≤ x)) by lia.
  by rewrite (lookup_ge_None_2 r) by (unfold blen in *; lia).
Qed.


Lemma le16_value n :
  ∃ a b, le16 n = [a; b] ∧ 0 ≤ a < 256 ∧ 0 ≤ b < 256
         ∧ a + 256 * b = n `mod` 65536.
Proof.
  exists (n `mod` 256), ((n `div` 256) `mod` 256). split; [done|].
  Z.div_mod_to_equations. lia.
Qed.

Lemma convert_line_to_1bit_overread r dst w :
  blen r < w → w + 7 ≤ INT_MAX → stride w ≤ blen dst →
  convert_line_to_1bit r dst w = None.
Proof.
  intros Hr Hmax Hd. pose proof (blen_nonneg r) as Hr0.
  unfold stride in Hd. unfold convert_line_to_1bit.
  rewrite wrap_i32_id by (unfold INT_MAX in *; lia).
  rewrite Z.quot_div_nonneg by lia.
  rewrite memset_Some by (Z.div_mod_to_equations; lia). simpl.
  replace (Z.to_nat w) with (length r + S (Z.to_nat (w - blen r - 1)))%nat
    by (unfold blen in *; lia).
  rewrite for_loop_add.
  destruct (for_loop (length r) 0 _ _) as [mid|]; [|done].
  simpl. by rewrite convert_pixel_overread by (unfold blen; lia).
Qed.

(** ** Counting the events of a run *)

Lemma printed_app pre post :
  printed (pre ++ post) = (printed pre + printed post)%nat.
Proof. unfold printed. by rewrite filter_app, length_app. Qed.

Lemma count_events_app f t1 t2 :
  count_events f (t1 ++ t2) = (count_events f t1 + count_events f t2)%nat.
Proof. unfold count_events. by rewrite List.filter_app, length_app. Qed.

Lemma count_events_row_events f l :
  (∀ e, row_event e → f e = false) → Forall row_event l →
  count_events f l = 0%nat.
Proof.
  intros Hf. induction 1 as [|e l He _ IH]; [done|].
  unfold count_events in *. simpl. by rewrite (Hf e He).
Qed.

Lemma row_event_not_malloc e : row_event e → is_malloc e = false.
Proof. by destruct e as [[]| | | | | | | | |]. Qed.
Lemma row_event_not_free e : row_event e → is_free e = false.
Proof. by destruct e as [[]| | | | | | | | |]. Qed.
Lemma row_event_not_flush e : row_event e → is_flush e = false.
Proof. by destruct e as [[]| | | | | | | | |]. Qed.
Lemma row_event_not_close e : row_event e → is_close e = false.
Proof. by destruct e as [[]| | | | | | | | |]. Qed.

Lemma count_events_page_trace hdr page l y data :
  Forall row_event l →
  count_events is_malloc (page_trace hdr page l y data) = 3%nat
  ∧ count_events is_free (page_trace hdr page l y data) = 3%nat
  ∧ count_events is_flush (page_trace hdr page l y data) = 1%nat
  ∧ count_events is_close (page_trace hdr page l y data) = 0%nat.
Proof.
  intros Hl. unfold page_trace. rewrite !count_events_app.
  rewrite (count_events_row_events is_malloc l row_event_not_malloc Hl).
  rewrite (count_events_row_events is_free l row_event_not_free Hl).
  rewrite (count_events_row_events is_flush l row_event_not_flush Hl).
  rewrite (count_events_row_events is_close l row_event_not_close Hl).
  done.
Qed.

Lemma blen_stdout_of_page_trace hdr page l y data :
  Forall row_event l →
  blen (stdout_of (page_trace hdr page l y data)) = 27 + blen data.
Proof.
  intros Hl. rewrite stdout_of_page_trace by done.
  unfold spec_raster_frame, spec_footer_frame, le16.
  rewrite !blen_app. unfold blen. simpl. lia.
Qed.

(** The page loop over a prefix of sane pages whose buffers are all
    allocated, with what it wrote and which calls it made. *)
Lemma run_pages_prefix_accounting pre rest hp page :
  Forall (λ p, page_sane (pg_header p)) pre →
  (∀ i, (i < 3 * printed pre)%nat → is_Some (heap_at hp i)) →
  ∃ t page',
    run_pages (pre ++ rest) hp page
    = (λ '(t2, code), (t ++ t2, code))
      <$> run_pages rest (heap_after (3 * printed pre) hp) page'
    ∧ blen (stdout_of t) = job_size pre
    ∧ count_events is_malloc t = (3 * printed pre)%nat
    ∧ count_events is_free t = (3 * printed pre)%nat
    ∧ count_events is_flush t = printed pre
    ∧ count_events is_close t = 0%nat.
Proof.
  intros Hs. revert hp page.
  induction Hs as [|p ps Hp _ IH]; intros hp page Hok.
  - exists [], page. split; [|done].
    change (heap_after (3 * printed []) hp) with hp. simpl.
    by destruct (run_pages rest hp page) as [[t c]|].
  - rewrite printed_cons in Hok. rewrite printed_cons. cbn [job_size].
    rewrite <- app_comm_cons. case_bool_decide as He.
    + pose proof (page_body_empty (pg_header p)
                    {| ras_pixels := pg_pixels p; ras_pages := [] |} hp
                    (wrap_i32 (page + 1)) He) as Hbody.
      destruct (IH hp (wrap_i32 (page + 1)) Hok)
        as (t' & page' & Hrun & Hsize & Hm & Hf & Hfl & Hc).
      exists (EReadHeader true
              :: [EStderr (DbgPage (wrap_i32 (page + 1))
                             (cupsWidth (pg_header p))
                             (cupsHeight (pg_header p))
                             (cupsBitsPerPixel (pg_header p))
                             (cupsColorSpace (pg_header p))
                             (cupsMediaType (pg_header p)));
                  EStderr DbgEmptyPage] ++ t'), page'.
      rewrite (run_pages_next _ _ _ _ _ _ _ Hbody), Hrun.
      split; [apply fmap_trace_compose|].
      rewrite stdout_of_cons_other, stdout_of_app by done.
      change (EReadHeader true :: ?a ++ t')
        with ((EReadHeader true :: a) ++ t').
      rewrite !count_events_app, Hm, Hf, Hfl, Hc.
      split; [|done]. rewrite blen_app, Hsize. done.
    + assert (Ha : allocated3 hp) by (split_and!; apply Hok; lia).
      destruct Ha as (H0 & H1 & H2).
      destruct (page_body_printable (pg_header p)
                  {| ras_pixels := pg_pixels p; ras_pages := [] |} hp
                  (wrap_i32 (page + 1)))
        as (l & y & data & ras' & Hbody & Hl & Hdata & _);
        [by apply page_sane_printable|done..|].
      destruct (IH (heap_after 3 hp) (wrap_i32 (page + 1)))
        as (t' & page' & Hrun & Hsize & Hm & Hf & Hfl & Hc).
      { intros i Hi. unfold heap_after. rewrite heap_at_drop. apply Hok. lia. }
      exists (EReadHeader true
              :: page_trace (pg_header p) (wrap_i32 (page + 1)) l y data
                 ++ t'), page'.
      rewrite (run_pages_next _ _ _ _ _ _ _ Hbody), Hrun.
      replace (heap_after (3 * printed ps) (heap_after 3 hp))
        with (heap_after (3 * S (printed ps)) hp).
      2:{ unfold heap_after. rewrite drop_drop. f_equal. lia. }
      split; [apply fmap_trace_compose|].
      rewrite stdout_of_cons_other, stdout_of_app by done.
      rewrite blen_app, blen_stdout_of_page_trace, Hsize, Hdata by done.
      destruct (count_events_page_trace (pg_header p) (wrap_i32 (page + 1))
                  l y data Hl) as (Cm & Cf & Cfl & Cc).
      change (EReadHeader true :: ?a ++ t')
        with ([EReadHeader true] ++ a ++ t').
      rewrite !count_events_app, Hm, Hf, Hfl, Hc, Cm, Cf, Cfl, Cc.
      split; [done|]. unfold count_events. simpl. repeat split; lia.
Qed.

Lemma run_pages_last pages hp page t :
  run_pages pages hp page = Some (t, 0) →
  0 ≤ page → page + Z.of_nat (length pages) ≤ INT_MAX →
  last t = Some (EStderr (DbgComplete (page + Z.of_nat (length pages)))).
Proof.
  revert hp page t. induction pages as [|p ps IH]; intros hp page t.
  - intros [= <-] _ _. simpl. by rewrite Z.add_0_r.
  - intros Hrun Hp Hmax. cbn [length] in Hmax.
    destruct (page_body (pg_header p)
                {| ras_pixels := pg_pixels p; ras_pages := [] |} hp
                (wrap_i32 (page + 1))) as [[log [ras2 hp2|c]]|] eqn:Hbody.
    + rewrite (run_pages_next _ _ _ _ _ _ _ Hbody) in Hrun.
      destruct (run_pages ps hp2 _) as [[log2 c2]|] eqn:Hrest; [|done].
      injection Hrun as <- ->.
      rewrite wrap_i32_id in Hrest by (unfold INT_MAX in *; lia).
      apply IH in Hrest; [|lia..].
      change (EReadHeader true :: log ++ log2)
        with ((EReadHeader true :: log) ++ log2).
      destruct log2 as [|e log2]; [done|].
      rewrite last_app, Hrest. simpl. do 3 f_equal. lia.
    + rewrite (run_pages_return _ _ _ _ _ _ Hbody) in Hrun.
      apply page_body_flow in Hbody as (-> & _). by injection Hrun.
    + by rewrite (run_pages_undefined _ _ _ _ Hbody) in Hrun.
Qed.

(** ** From a sample of the input to a bit of the output *)

Lemma input_row_lookup bpl px (y x : nat) :
  (x < Z.to_nat bpl)%nat →
  input_row bpl px y !! x = px !! (y * Z.to_nat bpl + x)%nat.
Proof.
  intros Hx. unfold input_row.
  by rewrite lookup_take_lt, lookup_drop by done.
Qed.

Lemma spec_output_row_lookup w r (i : nat) :
  (i < Z.to_nat (stride w))%nat →
  spec_output_row w r !! i = Some (spec_output_byte w r (Z.of_nat i)).
Proof.
  intros Hi. unfold spec_output_row.
  by rewrite list_lookup_fmap, lookup_seq_lt.
Qed.

Lemma spec_bitmap_lookup w bpl px (n y i : nat) :
  (y < n)%nat → (i < Z.to_nat (stride w))%nat →
  spec_bitmap w bpl px n !! (y * Z.to_nat (stride w) + i)%nat
  = Some (spec_output_byte w (input_row bpl px y) (Z.of_nat i)).
Proof.
  revert px y. induction n as [|n IH]; intros px y Hy Hi; [lia|].
  rewrite spec_bitmap_S.
  assert (Hlen : length (spec_output_row w (take (Z.to_nat bpl) px))
                 = Z.to_nat (stride w)).
  { unfold spec_output_row. by rewrite length_fmap, length_seq. }
  destruct y as [|y].
  - rewrite lookup_app_l by lia. simpl.
    by rewrite spec_output_row_lookup.
  - rewrite lookup_app_r by lia. rewrite Hlen.
    replace (S y * Z.to_nat (stride w) + i - Z.to_nat (stride w))%nat
      with (y * Z.to_nat (stride w) + i)%nat by lia.
    rewrite IH by lia. do 2 f_equal. unfold input_row.
    rewrite drop_drop. do 2 f_equal; lia.
Qed.

Lemma count_events_startup f e :
  (∀ path fd, f (EOpen path fd) = false) → (∀ d, f (EStderr d) = false) →
  count_events f (startup_log e) = 0%nat.
Proof.
  intros Ho Hd. unfold startup_log, count_events. simpl.
  rewrite !Hd. case_bool_decide; simpl; by rewrite ?Ho.
Qed.

(** [main] on a stream of sane pages whose buffers are all allocated. *)
Lemma main_accounting e ras :
  ¬ argument_error e → ¬ input_open_error e →
  e_raster_open e (input_fd e) = Some ras →
  Forall (λ p, page_sane (pg_header p)) (ras_pages ras) →
  (∀ i, (i < 3 * printed (ras_pages ras))%nat →
        is_Some (heap_at (e_heap e) i)) →
  ∃ t,
    main e = Some (t, 0)
    ∧ blen (stdout_of t) = job_size (ras_pages ras)
    ∧ count_events is_malloc t = (3 * printed (ras_pages ras))%nat
    ∧ count_events is_free t = (3 * printed (ras_pages ras))%nat
    ∧ count_events is_flush t = printed (ras_pages ras)
    ∧ count_events is_close t = 1%nat.
Proof.
  intros Ha Ho Hr Hs Hheap.
  destruct (run_pages_prefix_accounting (ras_pages ras) [] (e_heap e) 0
              Hs Hheap) as (t & page' & Hrun & Hsize & Hm & Hf & Hfl & Hc).
  rewrite app_nil_r in Hrun.
  cbn [run_pages fmap option_fmap option_map] in Hrun.
  rewrite (main_run e ras), Hrun by done.
  eexists. split; [reflexivity|]. split.
  - rewrite !stdout_of_app, stdout_of_startup_log.
    unfold stdout_of at 1 3. simpl. by rewrite app_nil_r.
  - rewrite !count_events_app, !count_events_startup, Hm, Hf, Hfl, Hc by done.
    unfold count_events. simpl. repeat split; lia.
Qed.

(** The first turn of the row loop when the thresholder or the copy
    into the page buffer is undefined. *)
Lemma read_rows_first_undefined hdr wb (n : nat) st :
  0 < cupsBytesPerLine hdr ≤ blen (ras_pixels (r_ras st)) →
  blen (r_line_in st) = cupsBytesPerLine hdr →
  (∀ row, convert_line_to_1bit
            (take (Z.to_nat (cupsBytesPerLine hdr)) (ras_pixels (r_ras st)))
            (r_line_out st) (wrap_i32 (cupsWidth hdr)) = Some row →
          memcpy (r_page_data st) (wrap_i32 (r_y st * wb)) row wb = None) →
  read_rows (S n) hdr wb st = None.
Proof.
  intros Hbpl Hin Hbad. simpl.
  rewrite cupsRasterReadPixels_ok by done. simpl.
  destruct (Z.eqb_spec (cupsBytesPerLine hdr) 0) as [?|_]; [lia|].
  destruct (convert_line_to_1bit _ _ _) as [row|] eqn:Hrow; [|done].
  simpl. by rewrite (Hbad row eq_refl).
Qed.

Lemma page_body_short_stride hdr ras hp page :
  0 < cupsWidth hdr → cupsWidth hdr + 7 ≤ INT_MAX → 0 < cupsHeight hdr →
  0 < cupsBytesPerLine hdr < cupsWidth hdr →
  cupsBytesPerLine hdr ≤ blen (ras_pixels ras) →
  allocated3 hp →
  page_body hdr ras hp page = None.
Proof.
  intros Hw Hmax Hh Hbpl Hpx (H0 & H1 & H2).
  destruct (heap_three hp H0 H1 H2) as (g0 & g1 & g2 & hp' & ->).
  unfold page_body, malloc.
  rewrite bool_decide_eq_false_2 by lia.
  rewrite (wrap_u32_id (cupsWidth hdr + 7)) by (unfold INT_MAX in *; lia).
  fold (stride (cupsWidth hdr)). pose proof (stride_pos _ Hw) as Hwb.
  cbn [fmap option_fmap option_map].
  replace (Z.to_nat (cupsHeight hdr))
    with (S (Z.to_nat (cupsHeight hdr - 1))) by lia.
  rewrite read_rows_first_undefined; [done|..].
  - cbn [r_ras]. lia.
  - cbn [r_line_in]. apply blen_malloc. lia.
  - cbn [r_ras r_line_out]. intros row.
    rewrite wrap_i32_id by (unfold INT_MAX in *; lia).
    rewrite convert_line_to_1bit_overread; [done| |done|].
    + rewrite blen_take by lia. lia.
    + rewrite blen_malloc by lia. lia.
Qed.

Lemma page_body_buffer_overflow hdr ras hp page :
  0 < cupsWidth hdr → cupsWidth hdr + 7 ≤ INT_MAX → 0 < cupsHeight hdr →
  cupsWidth hdr ≤ cupsBytesPerLine hdr →
  cupsBytesPerLine hdr ≤ blen (ras_pixels ras) →
  allocated3 hp →
  wrap_u32 (stride (cupsWidth hdr) * cupsHeight hdr) < stride (cupsWidth hdr) →
  page_body hdr ras hp page = None.
Proof.
  intros Hw Hmax Hh Hbpl Hpx (H0 & H1 & H2) Hwrap.
  destruct (heap_three hp H0 H1 H2) as (g0 & g1 & g2 & hp' & ->).
  unfold page_body, malloc.
  rewrite bool_decide_eq_false_2 by lia.
  rewrite (wrap_u32_id (cupsWidth hdr + 7)) by (unfold INT_MAX in *; lia).
  fold (stride (cupsWidth hdr)). pose proof (stride_pos _ Hw) as Hwb.
  cbn [fmap option_fmap option_map].
  replace (Z.to_nat (cupsHeight hdr))
    with (S (Z.to_nat (cupsHeight hdr - 1))) by lia.
  rewrite read_rows_first_undefined; [done|..].
  - cbn [r_ras]. lia.
  - cbn [r_line_in]. apply blen_malloc. lia.
  - cbn [r_ras r_line_out r_page_data r_y]. intros row _.
    unfold memcpy. rewrite bool_decide_eq_false_2; [done|].
    rewrite blen_malloc by (unfold wrap_u32; apply Z.mod_pos_bound; lia).
    change (wrap_i32 (0 * stride (cupsWidth hdr))) with 0. lia.
Qed.

(** ** [main] when an allocation fails, and a page among others *)

(** [main] up to the page whose buffers it cannot allocate. *)
Lemma main_alloc_failure e ras pre p rest :
  ¬ argument_error e → ¬ input_open_error e →
  e_raster_open e (input_fd e) = Some ras →
  ras_pages ras = pre ++ p :: rest →
  Forall (λ p, page_sane (pg_header p)) pre →
  (∀ i, (i < 3 * printed pre)%nat → is_Some (heap_at (e_heap e) i)) →
  ¬ page_empty (pg_header p) →
  ¬ allocated3 (heap_after (3 * printed pre) (e_heap e)) →
  ∃ t,
    main e = Some (t, 1)
    ∧ last t = Some (EStderr ErrAlloc)
    ∧ blen (stdout_of t) = job_size pre
    ∧ count_events is_malloc t = (3 * printed pre + 3)%nat
    ∧ count_events is_free t = (3 * printed pre)%nat
    ∧ count_events is_flush t = printed pre
    ∧ count_events is_close t = 0%nat.
Proof.
  intros Ha Ho Hr Hpages Hs Hheap He Hfail.
  destruct (run_pages_prefix_accounting pre (p :: rest) (e_heap e) 0
              Hs Hheap) as (t & page' & Hrun & Hsize & Hm & Hf & Hfl & Hc).
  destruct (heap_at_cases (heap_after (3 * printed pre) (e_heap e)))
    as [?|[_ Hnone]]; [done|].
  destruct (page_body_alloc_failure (pg_header p)
              {| ras_pixels := pg_pixels p; ras_pages := [] |}
              _ (wrap_i32 (page' + 1)) He Hnone)
    as (s0 & s1 & s2 & b0 & b1 & b2 & Hbody & _).
  rewrite (run_pages_return _ _ _ _ _ _ Hbody) in Hrun.
  cbn [fmap option_fmap option_map] in Hrun.
  rewrite (main_run e ras), Hpages, Hrun by done.
  eexists. split; [reflexivity|].
  split; [|split].
  - rewrite !app_assoc.
    change (EReadHeader true :: ?a :: ?b :: ?c :: ?d :: [?x])
      with ([EReadHeader true; a; b; c; d] ++ [x]).
    rewrite app_assoc. apply last_snoc.
  - rewrite !stdout_of_app, stdout_of_startup_log.
    unfold stdout_of at 1 3. simpl. by rewrite app_nil_r.
  - rewrite !count_events_app, !count_events_startup, Hm, Hf, Hfl, Hc by done.
    unfold count_events. simpl. repeat split; lia.
Qed.

(** The bytes of a complete page among the pages of a job. *)
Lemma run_pages_page_at pre p rest hp page :
  Forall (λ p, page_sane (pg_header p)) (pre ++ p :: rest) →
  page_complete p →
  (∀ i, (i < 3 * printed (pre ++ p :: rest))%nat → is_Some (heap_at hp i)) →
  ∃ t out_pre out_post,
    run_pages (pre ++ p :: rest) hp page = Some (t, 0)
    ∧ stdout_of t = out_pre ++ page_bytes p ++ out_post
    ∧ blen out_pre = job_size pre
    ∧ blen out_post = job_size rest.
Proof.
  intros Hs Hc Hheap.
  apply Forall_app in Hs as [Hpre Hs]. apply Forall_cons in Hs as [Hp Hrest].
  rewrite printed_app in Hheap.
  change (p :: rest) with ([p] ++ rest) in Hheap.
  rewrite printed_app in Hheap.
  destruct (run_pages_prefix_accounting pre (p :: rest) hp page Hpre)
    as (t1 & page1 & Hrun1 & Hsize1 & _); [intros; apply Hheap; lia|].
  set (hp1 := heap_after (3 * printed pre) hp) in *.
  assert (Hheap1 : ∀ i, (i < 3 * printed [p])%nat → is_Some (heap_at hp1 i)).
  { intros i Hi. unfold hp1, heap_after. rewrite heap_at_drop.
    apply Hheap. lia. }
  destruct (run_pages_prefix [p] rest hp1 page1)
    as (t2 & page2 & Hp2 & Hrun2 & _); [by apply Forall_singleton|done|].
  set (hp2 := heap_after (3 * printed [p]) hp1) in *.
  destruct (run_pages_prefix_accounting rest [] hp2 page2 Hrest)
    as (t3 & page3 & Hrun3 & Hsize3 & _).
  { intros i Hi. unfold hp2, hp1, heap_after. rewrite !heap_at_drop.
    apply Hheap. lia. }
  rewrite app_nil_r in Hrun3.
  cbn [run_pages fmap option_fmap option_map] in Hrun3.
  change (p :: rest) with ([p] ++ rest) in Hrun1.
  rewrite Hrun2, Hrun3 in Hrun1.
  cbn [fmap option_fmap option_map] in Hrun1.
  exists (t1 ++ t2 ++ t3 ++ [EReadHeader false; ERasterClose;
                              EStderr (DbgComplete page3)]).
  exists (stdout_of t1), (stdout_of t3).
  split; [exact Hrun1|]. split; [|done].
  rewrite !stdout_of_app. f_equal. 
  assert (Hout : stdout_of t2 = page_bytes p).
  { assert (Hm : observable (run_pages [p] hp1 page1)
                 = Some (run_model [p] hp1)).
    { apply run_pages_complete. apply Forall_singleton. by split. }
    rewrite Hp2, observable_Some, stdout_of_app in Hm.
    change (stdout_of [EReadHeader false; ERasterClose;
                       EStderr (DbgComplete page2)]) with (@nil Z) in Hm.
    rewrite app_nil_r in Hm. cbn [run_model] in Hm.
    unfold page_bytes. revert Hheap1. unfold printed.
    rewrite filter_cons, filter_nil.
    destruct (decide (page_empty (pg_header p))) as [He|He].
    - rewrite bool_decide_eq_true_2 in Hm |- * by done.
      rewrite decide_False by tauto. intros _. by injection Hm as ->.
    - rewrite bool_decide_eq_false_2 in Hm |- * by done.
      rewrite decide_True by done. intros Hheap1.
      rewrite bool_decide_eq_true_2 in Hm.
      + rewrite app_nil_r in Hm. injection Hm as ->.
        unfold page_bytes. by rewrite bool_decide_eq_false_2.
      + repeat split; apply Hheap1; simpl; lia. }
  rewrite Hout. f_equal.
  unfold stdout_of at 2. simpl. by rewrite app_nil_r.
Qed.

Lemma main_page_at e ras pre p rest :
  ¬ argument_error e → ¬ input_open_error e →
  e_raster_open e (input_fd e) = Some ras →
  ras_pages ras = pre ++ p :: rest →
  Forall (λ p, page_sane (pg_header p)) (ras_pages ras) →
  page_complete p →
  (∀ i, (i < 3 * printed (ras_pages ras))%nat →
        is_Some (heap_at (e_heap e) i)) →
  ∃ t out_pre out_post,
    main e = Some (t, 0)
    ∧ stdout_of t = out_pre ++ page_bytes p ++ out_post
    ∧ blen out_pre = job_size pre
    ∧ blen out_post = job_size rest.
Proof.
  intros Ha Ho Hr Hpages Hs Hc Hheap. rewrite Hpages in Hs, Hheap.
  destruct (run_pages_page_at pre p rest (e_heap e) 0 Hs Hc Hheap)
    as (t & out_pre & out_post & Hrun & Hout & Hpre & Hpost).
  rewrite (main_run e ras), Hpages, Hrun by done.
  eexists _, out_pre, out_post. split; [reflexivity|].
  split; [|done].
  rewrite !stdout_of_app, stdout_of_startup_log, Hout.
  by unfold stdout_of at 1.
Qed.

(** The last thing [main] does when it has read the whole stream. *)
Lemma main_last e ras :
  ¬ argument_error e → ¬ input_open_error e →
  e_raster_open e (input_fd e) = Some ras →
  Forall (λ p, page_sane (pg_header p)) (ras_pages ras) →
  (∀ i, (i < 3 * printed (ras_pages ras))%nat →
        is_Some (heap_at (e_heap e) i)) →
  Z.of_nat (length (ras_pages ras)) ≤ INT_MAX →
  ∃ t,
    main e = Some (t, 0)
    ∧ last t = Some (EStderr
                       (DbgComplete (Z.of_nat (length (ras_pages ras))))).
Proof.
  intros Ha Ho Hr Hs Hheap Hlen.
  destruct (main_accounting e ras Ha Ho Hr Hs Hheap) as (t & Hmain & _).
  exists t. split; [done|].
  rewrite (main_run e ras) in Hmain by done.
  destruct (run_pages (ras_pages ras) (e_heap e) 0) as [[t' c]|] eqn:Hrun;
    [|done].
  cbn [fmap option_fmap option_map] in Hmain.
  assert (c = 0) as -> by congruence.
  assert (t = startup_log e
              ++ [ERasterOpen (input_fd e) true; EStderr DbgRasterOpened]
              ++ t') as -> by congruence.
  pose proof (run_pages_last _ _ _ _ Hrun) as Hlast.
  rewrite Z.add_0_l in Hlast. specialize (Hlast ltac:(lia) Hlen).
  destruct t' as [|x t' _] using rev_ind; [done|].
  rewrite last_snoc in Hlast. injection Hlast as ->.
  rewrite !app_assoc. apply last_snoc.
Qed.

(** [main] is undefined when a page is, after pages that are sane and
    get their buffers. *)
Lemma main_page_undefined e ras pre p rest :
  ¬ argument_error e → ¬ input_open_error e →
  e_raster_open e (input_fd e) = Some ras →
  ras_pages ras = pre ++ p :: rest →
  Forall (λ p, page_sane (pg_header p)) pre →
  (∀ i, (i < 3 * printed pre)%nat → is_Some (heap_at (e_heap e) i)) →
  (∀ page, page_body (pg_header p)
                     {| ras_pixels := pg_pixels p; ras_pages := [] |}
                     (heap_after (3 * printed pre) (e_heap e)) page = None) →
  main e = None.
Proof.
  intros Ha Ho Hr Hpages Hs Hheap Hbody.
  destruct (run_pages_prefix_accounting pre (p :: rest) (e_heap e) 0
              Hs Hheap) as (t & page' & Hrun & _).
  rewrite run_pages_undefined in Hrun by apply Hbody.
  by rewrite (main_run e ras), Hpages, Hrun.
Qed.

(** * The claims of the specification *)

(** ** C1: a short read

    C1 states that a page whose row loop stops after [k < height] rows is
    framed with [k] as its row count and [ceil(width/8) * k] payload
    bytes. The code passes [header.cupsHeight], not [y], to
    [send_raster]: on a 1x2 page of which only the first row can be read
    the frame carries the row count 2 and two payload bytes, the second
    being whatever [malloc] left in the page buffer (here the byte [g]). *)
Theorem short_read_sends_header_height (g : Z) :
  observable (main (job [gray_page 1 2 10 [0x00]] (fresh_heap 3 g)))
  = Some ([0x1B; 0x4E; 0x0D; 0x05; 0x1B; 0x4E; 0x04; 0x0A; 0x1F; 0x11; 0x0A;
           0x1D; 0x76; 0x30; 0x00; 0x01; 0x00; 0x02; 0x00;
           0x80; to_uchar g;
           0x1F; 0xF0; 0x05; 0x00; 0x1F; 0xF0; 0x03; 0x00], 0).
Proof. reflexivity. Qed.

(** ** C2: the thresholder

    C2: for every input row [r] and width [w <= len(r)] (with [w + 7]
    representable as an [int], and an output buffer of [ceil(w/8)]
    bytes), [convert_line_to_1bit] yields a row of [ceil(w/8)] bytes in
    which bit [7 - x mod 8] of byte [x / 8] is set iff [r[x] < 128], for
    every [x] in [0, w); a sample equal to 128 gives a 0 bit; and every
    other bit of the row is 0, the trailing bits of the last byte
    included. *)
Theorem thresholder_bits (r dst : list Z) (w : Z) :
  0 ≤ w ≤ blen r → w + 7 ≤ INT_MAX → blen dst = stride w →
  ∃ out, convert_line_to_1bit r dst w = Some out
    ∧ blen out = (w + 7) / 8
    ∧ (∀ x, 0 ≤ x < w →
         ∃ s b, r !! Z.to_nat x = Some s
                ∧ out !! Z.to_nat (x / 8) = Some b
                ∧ (Z.testbit b (7 - x `mod` 8) = true ↔ s < 128)
                ∧ (s = 128 → Z.testbit b (7 - x `mod` 8) = false))
    ∧ (∀ (i : nat) (b j : Z), out !! i = Some b →
         j < 0 ∨ 8 ≤ j ∨ w ≤ 8 * Z.of_nat i + (7 - j) →
         Z.testbit b j = false).
Proof.
  intros Hw Hmax Hlen.
  destruct (convert_line_row_bits r dst w) as (out & Ho & Hlo & Hbits);
    [done..|].
  exists out. split; [done|]. split; [done|]. split.
  - intros x Hx.
    assert (Hq : 0 ≤ x `div` 8 < stride w)
      by (unfold stride; Z.div_mod_to_equations; lia).
    assert (Hm : 0 ≤ x `mod` 8 < 8) by (apply Z.mod_pos_bound; lia).
    assert (Hdm : x = 8 * (x `div` 8) + x `mod` 8) by (apply Z.div_mod; lia).
    destruct (lookup_lt_is_Some_2 r (Z.to_nat x)) as [s Hs].
    { unfold blen in Hw. lia. }
    destruct (lookup_lt_is_Some_2 out (Z.to_nat (x `div` 8))) as [b Hb].
    { unfold blen in Hlo. lia. }
    exists s, b. split; [done|]. split; [done|].
    assert (Hbit : Z.testbit b (7 - x `mod` 8) = bool_decide (s < 128)).
    { rewrite (Hbits _ _ _ Hb) by lia.
      rewrite bool_decide_eq_true_2 by lia. simpl.
      rewrite Z2Nat.id by lia.
      replace (8 * x `div` 8 + (7 - (7 - x `mod` 8))) with x by lia.
      unfold spec_burn. rewrite Hs. simpl.
      by rewrite (bool_decide_eq_true_2 (0 ≤ x < w)). }
    rewrite Hbit. split.
    + by rewrite bool_decide_eq_true.
    + intros ->. by apply bool_decide_eq_false_2.
  - intros i b j Hi Hj.
    destruct (decide (j < 0)) as [Hneg|Hnn]; [by apply Z.testbit_neg_r|].
    rewrite (Hbits _ _ _ Hi) by lia.
    destruct Hj as [Hj|[Hj|Hj]]; [lia| |].
    + by rewrite bool_decide_eq_false_2 by lia.
    + unfold spec_burn. rewrite (bool_decide_eq_false_2 (0 ≤ _ < w)) by lia.
      by rewrite andb_false_r.
Qed.

Lemma thresholder_bits_witness :
  (0 ≤ 4 ≤ blen [0x7F; 0x80; 0x00; 0xFF]) ∧ 4 + 7 ≤ INT_MAX
  ∧ blen [0x55] = stride 4
  ∧ ∃ out, convert_line_to_1bit [0x7F; 0x80; 0x00; 0xFF] [0x55] 4 = Some out
      ∧ blen out = (4 + 7) / 8
      ∧ (∀ x, 0 ≤ x < 4 →
           ∃ s b, [0x7F; 0x80; 0x00; 0xFF] !! Z.to_nat x = Some s
                  ∧ out !! Z.to_nat (x / 8) = Some b
                  ∧ (Z.testbit b (7 - x `mod` 8) = true ↔ s < 128)
                  ∧ (s = 128 → Z.testbit b (7 - x `mod` 8) = false))
      ∧ (∀ (i : nat) (b j : Z), out !! i = Some b →
           j < 0 ∨ 8 ≤ j ∨ 4 ≤ 8 * Z.of_nat i + (7 - j) →
           Z.testbit b j = false).
Proof.
  assert (H1 : 0 ≤ 4 ≤ blen [0x7F; 0x80; 0x00; 0xFF]) by (vm_compute; split; discriminate).
  assert (H2 : 4 + 7 ≤ INT_MAX) by (vm_compute; discriminate).
  assert (H3 : blen [0x55] = stride 4) by reflexivity.
  split; [exact H1|]. split; [exact H2|]. split; [exact H3|].
  exact (thresholder_bits [0x7F; 0x80; 0x00; 0xFF] [0x55] 4 H1 H2 H3).
Defined.

(** ** C3: the bytes of a page

    C3 as stated gives scenario 1 (a 1x1 page holding one black pixel,
    media type 10) 25 output bytes; the bytes it lists, which are the
    ones the filter writes, are 28. *)
Lemma scenario1_has_28_bytes :
  observable (main scenario1) = Some (scenario1_bytes, 0)
  ∧ length scenario1_bytes = 28%nat
  ∧ length scenario1_bytes ≠ 25%nat.
Proof. split; [reflexivity|]. split; [reflexivity|]. discriminate. Qed.

(** C3, amended: when the arguments are well-formed, the stream opens,
    every page is sane, has all its rows in the stream and a media type
    that fits the one-byte slot, and the page buffers are allocated, the
    bytes on standard output are exactly, page after page in input order
    and with nothing in between, init-frame || raster-frame ||
    footer-frame as the specification lays them out (nothing for an
    empty page), and the exit code is 0; scenario 1 produces exactly the
    28 bytes 1B 4E 0D 05 1B 4E 04 0A 1F 11 0A 1D 76 30 00 01 00 01 00 80
    1F F0 05 00 1F F0 03 00. *)
Theorem page_frames_exact :
  (∀ e ras,
     ¬ argument_error e → ¬ input_open_error e →
     e_raster_open e (input_fd e) = Some ras →
     Forall (λ p, page_sane (pg_header p) ∧ page_complete p
                  ∧ 0 ≤ cupsMediaType (pg_header p) < 256) (ras_pages ras) →
     (∀ i, (i < 3 * printed (ras_pages ras))%nat →
           is_Some (heap_at (e_heap e) i)) →
     observable (main e) = Some (ras_pages ras ≫= spec_page_bytes, 0))
  ∧ observable (main scenario1) = Some (scenario1_bytes, 0)
  ∧ length scenario1_bytes = 28%nat.
Proof.
  split; [|split; reflexivity].
  intros e ras Ha Ho Hr Hpages Hheap.
  rewrite (observable_main_run e ras) by done.
  rewrite run_pages_complete.
  2:{ eapply Forall_impl; [exact Hpages|]. by intros p (? & ? & ?). }
  rewrite run_model_succeed by done. do 2 f_equal.
  apply bind_page_bytes_spec.
  eapply Forall_impl; [exact Hpages|]. by intros p (? & ? & ?).
Qed.

(** Scenario 5 of the specification: a black pixel then a white one. *)
Lemma page_frames_exact_witness :
  observable (main (job [gray_page 1 1 10 [0x00]; gray_page 1 1 10 [0xFF]]
                        (fresh_heap 6 0)))
  = Some (scenario1_bytes
          ++ [0x1B; 0x4E; 0x0D; 0x05; 0x1B; 0x4E; 0x04; 0x0A; 0x1F; 0x11;
              0x0A; 0x1D; 0x76; 0x30; 0x00; 0x01; 0x00; 0x01; 0x00;
              0x00;
              0x1F; 0xF0; 0x05; 0x00; 0x1F; 0xF0; 0x03; 0x00], 0).
Proof.
  refine (proj1 page_frames_exact
            (job [gray_page 1 1 10 [0x00]; gray_page 1 1 10 [0xFF]]
                 (fresh_heap 6 0))
            {| ras_pixels := [];
               ras_pages := [gray_page 1 1 10 [0x00];
                             gray_page 1 1 10 [0xFF]] |} _ _ _ _ _).
  - unfold argument_error, argc. simpl. lia.
  - unfold input_open_error, argc. simpl. lia.
  - reflexivity.
  - unfold page_sane, page_complete, page_empty, stride, blen, INT_MAX.
    simpl.
    repeat (apply Forall_cons_2; [simpl; Z.div_mod_to_equations; lia|]).
    apply Forall_nil_2.
  - intros i Hi. vm_compute in Hi.
    do 6 (destruct i as [|i]; [by eexists|]). lia.
Defined.

(** ** C4: the media-type byte

    C4 as stated makes the media-type byte equal to the header's
    [media_type] whenever that is not zero; the slot is one byte, filled
    by the cast [(unsigned char)media_type]: a page whose media type is
    256 gets the byte 0. *)
Lemma media_type_256_sends_zero :
  observable (main (job [gray_page 1 1 256 [0x00]] (fresh_heap 3 0)))
  = Some ([0x1B; 0x4E; 0x0D; 0x05; 0x1B; 0x4E; 0x04; 0x0A; 0x1F; 0x11; 0x00;
           0x1D; 0x76; 0x30; 0x00; 0x01; 0x00; 0x01; 0x00;
           0x80;
           0x1F; 0xF0; 0x05; 0x00; 0x1F; 0xF0; 0x03; 0x00], 0)
  ∧ cupsMediaType (pg_header (gray_page 1 1 256 [0x00])) = 256.
Proof. split; reflexivity. Qed.

(** C4, amended: for every processed page (a sane page that is not
    empty and whose buffers are allocated) the init frame is
    1B 4E 0D 05 1B 4E 04 0A 1F 11 followed by the media-type byte, which
    is 0x0A when the header's [media_type] is zero and the low 8 bits of
    [media_type] otherwise: [media_type] itself when it lies in 1..255. *)
Theorem media_type_byte hdr ras hp page :
  page_sane hdr → ¬ page_empty hdr → allocated3 hp →
  ∃ log ras' hp',
    page_body hdr ras hp page = Some (log, Next ras' hp')
    ∧ take 10 (stdout_of log)
      = [0x1B; 0x4E; 0x0D; 0x05; 0x1B; 0x4E; 0x04; 0x0A; 0x1F; 0x11]
    ∧ stdout_of log !! 10%nat
      = Some (if bool_decide (cupsMediaType hdr = 0) then 0x0A
              else cupsMediaType hdr `mod` 256)
    ∧ (0 < cupsMediaType hdr < 256 →
       stdout_of log !! 10%nat = Some (cupsMediaType hdr)).
Proof.
  intros Hs Hne Ha.
  destruct (page_body_frames hdr ras hp page Hs Hne Ha)
    as (log & ras' & data & Hbody & Hout & _).
  exists log, ras', (heap_after 3 hp). split; [done|].
  rewrite Hout. split; [done|].
  change (([0x1b; 0x4e; 0x0d; 5; 0x1b; 0x4e; 0x04; 10; 0x1f; 0x11;
            media_slot hdr] ++ _) !! 10%nat) with (Some (media_slot hdr)).
  unfold media_slot. split.
  - f_equal. repeat case_bool_decide; done.
  - intros Hmt. f_equal.
    rewrite bool_decide_eq_true_2 by lia. apply Z.mod_small. lia.
Qed.

Lemma media_type_byte_witness :
  page_sane (gray_header 8 1 11) ∧ ¬ page_empty (gray_header 8 1 11)
  ∧ allocated3 (fresh_heap 3 0)
  ∧ ∃ log ras' hp',
      page_body (gray_header 8 1 11)
                {| ras_pixels := [0x00; 0xFF; 0x00; 0xFF; 0x00; 0xFF; 0x00; 0xFF];
                   ras_pages := [] |} (fresh_heap 3 0) 1
      = Some (log, Next ras' hp')
      ∧ take 10 (stdout_of log)
        = [0x1B; 0x4E; 0x0D; 0x05; 0x1B; 0x4E; 0x04; 0x0A; 0x1F; 0x11]
      ∧ stdout_of log !! 10%nat
        = Some (if bool_decide (cupsMediaType (gray_header 8 1 11) = 0)
                then 0x0A else cupsMediaType (gray_header 8 1 11) `mod` 256)
      ∧ (0 < cupsMediaType (gray_header 8 1 11) < 256 →
         stdout_of log !! 10%nat = Some (cupsMediaType (gray_header 8 1 11))).
Proof.
  assert (H1 : page_sane (gray_header 8 1 11)).
  { unfold page_sane, page_empty, stride, INT_MAX. simpl.
    Z.div_mod_to_equations. lia. }
  assert (H2 : ¬ page_empty (gray_header 8 1 11)).
  { unfold page_empty. simpl. lia. }
  assert (H3 : allocated3 (fresh_heap 3 0)).
  { unfold allocated3. by repeat split; eexists. }
  split; [exact H1|]. split; [exact H2|]. split; [exact H3|].
  exact (media_type_byte (gray_header 8 1 11) _ (fresh_heap 3 0) 1 H1 H2 H3).
Defined.

(** ** C5: empty pages

    C5: a page whose header has [width == 0] or [height == 0] produces
    no output byte and processing goes on with the next header: the turn
    of the page loop writes nothing to standard output, allocates
    nothing and hands the reader on untouched; and what the process
    writes and how it exits is what it would with the empty pages taken
    out of the stream. *)
Theorem empty_pages_skipped :
  (∀ hdr ras hp page,
     cupsWidth hdr = 0 ∨ cupsHeight hdr = 0 →
     ∃ log, page_body hdr ras hp page = Some (log, Next ras hp)
            ∧ stdout_of log = [])
  ∧ (∀ e, observable (main e) = observable (main (without_empty_pages e))).
Proof.
  split.
  - intros hdr ras hp page He. eexists. split.
    + by apply page_body_empty.
    + done.
  - apply observable_without_empty_pages.
Qed.

(** An empty page before and after the page of scenario 1. *)
Lemma empty_pages_skipped_witness :
  observable (main (job [gray_page 0 7 10 []; gray_page 1 1 10 [0x00];
                         gray_page 5 0 10 []] (fresh_heap 3 0)))
  = observable (main scenario1).
Proof.
  exact (proj2 empty_pages_skipped
           (job [gray_page 0 7 10 []; gray_page 1 1 10 [0x00];
                 gray_page 5 0 10 []] (fresh_heap 3 0))).
Defined.

(** ** C6: the usage error

    C6: when [argc] (the program name included) is below 6 or above 7,
    [main] writes the usage message to standard error, after its two
    start-up debug lines, and returns 1 without any event on the input
    or the output stream; the message is one line: its text ends with
    the only newline it has besides those of the program name. *)
Theorem usage_error (e : env) :
  argc e < 6 ∨ argc e > 7 →
  ∃ t prog,
    main e = Some (t, 1)
    ∧ stderr_of t = [DbgStarting; DbgArgc (argc e); ErrUsage prog]
    ∧ Forall (λ ev, is_stream_io ev = false) t
    ∧ stdout_of t = []
    ∧ (∃ body, usage_text prog = body +:+ newline
               ∧ count_newlines body = count_newlines prog).
Proof.
  intros Ha. eexists _, (default "(null)" (e_argv e !! 0%nat)).
  split; [by apply main_usage|].
  split; [done|]. split; [by repeat constructor|]. split; [done|].
  exists ("Usage: " +:+ default "(null)" (e_argv e !! 0%nat)
          +:+ " job user title copies options [file]").
  split.
  - unfold usage_text. by rewrite !string_app_assoc.
  - rewrite !count_newlines_app. simpl. lia.
Qed.

(** The filter started with no job argument at all. *)
Lemma usage_error_witness :
  (argc (with_args ["rastertopm110"] scenario1) < 6
   ∨ argc (with_args ["rastertopm110"] scenario1) > 7)
  ∧ ∃ t prog,
      main (with_args ["rastertopm110"] scenario1) = Some (t, 1)
      ∧ stderr_of t
        = [DbgStarting; DbgArgc (argc (with_args ["rastertopm110"] scenario1));
           ErrUsage prog]
      ∧ Forall (λ ev, is_stream_io ev = false) t
      ∧ stdout_of t = []
      ∧ (∃ body, usage_text prog = body +:+ newline
                 ∧ count_newlines body = count_newlines prog).
Proof.
  assert (H : argc (with_args ["rastertopm110"] scenario1) < 6
              ∨ argc (with_args ["rastertopm110"] scenario1) > 7).
  { left. unfold argc. simpl. lia. }
  split; [exact H|].
  exact (usage_error (with_args ["rastertopm110"] scenario1) H).
Defined.

(** ** C7: exit codes

    C7: whenever [main] returns, its exit code is 0 or 1, and it is 1
    exactly when the argument count is wrong, the input file does not
    open, the raster stream does not open, or an allocation of a page
    buffer fails; it does return on every stream of sane pages; and on a
    stream without pages it returns 0 and writes no output byte. *)
Theorem exit_codes (e : env) :
  (∀ t code, main e = Some (t, code) →
     (code = 0 ∨ code = 1)
     ∧ (code = 1 ↔ argument_error e ∨ input_open_error e
                    ∨ raster_open_error e ∨ allocation_failure t))
  ∧ ((∀ fd ras, e_raster_open e fd = Some ras →
                Forall (λ p, page_sane (pg_header p)) (ras_pages ras)) →
     ∃ t code, main e = Some (t, code))
  ∧ (∀ ras, ¬ argument_error e → ¬ input_open_error e →
            e_raster_open e (input_fd e) = Some ras → ras_pages ras = [] →
            ∃ t, main e = Some (t, 0) ∧ stdout_of t = []).
Proof.
  split; [|split].
  - intros t code. apply main_exit_codes.
  - intros Hs. destruct (main_sane e Hs) as [[t code] Hm]. by exists t, code.
  - intros ras Ha Ho Hr Hnil. rewrite (main_run e ras) by done.
    rewrite Hnil. eexists. split; [reflexivity|].
    by rewrite !stdout_of_app, stdout_of_startup_log.
Qed.

(** A job without pages. *)
Lemma exit_codes_witness :
  ∃ t, main (job [] []) = Some (t, 0) ∧ stdout_of t = [].
Proof.
  refine (proj2 (proj2 (exit_codes (job [] [])))
            {| ras_pixels := []; ras_pages := [] |} _ _ _ _).
  - unfold argument_error, argc. simpl. lia.
  - unfold input_open_error, argc. simpl. lia.
  - reflexivity.
  - reflexivity.
Defined.

(** ** C8: determinism

    C8 as stated makes output and exit code a function of the input
    stream and the arguments alone. They also depend on the heap: on the
    same one-page job, a run whose allocations succeed writes the page
    and exits 0, a run whose first allocation fails writes nothing and
    exits 1; and on a page cut short by a failed read the page buffer is
    sent as [malloc] left it, so two runs differ by that byte. *)
Lemma runs_differ_with_the_heap :
  (observable (main (job [gray_page 1 1 10 [0x00]] (fresh_heap 3 0)))
   = Some (scenario1_bytes, 0)
   ∧ observable (main (job [gray_page 1 1 10 [0x00]] [None])) = Some ([], 1))
  ∧ (observable (main (job [gray_page 1 2 10 [0x00]] (fresh_heap 3 0x11)))
     = Some ([0x1B; 0x4E; 0x0D; 0x05; 0x1B; 0x4E; 0x04; 0x0A; 0x1F; 0x11;
              0x0A; 0x1D; 0x76; 0x30; 0x00; 0x01; 0x00; 0x02; 0x00;
              0x80; 0x11;
              0x1F; 0xF0; 0x05; 0x00; 0x1F; 0xF0; 0x03; 0x00], 0)
     ∧ observable (main (job [gray_page 1 2 10 [0x00]] (fresh_heap 3 0x22)))
       = Some ([0x1B; 0x4E; 0x0D; 0x05; 0x1B; 0x4E; 0x04; 0x0A; 0x1F; 0x11;
                0x0A; 0x1D; 0x76; 0x30; 0x00; 0x01; 0x00; 0x02; 0x00;
                0x80; 0x22;
                0x1F; 0xF0; 0x05; 0x00; 0x1F; 0xF0; 0x03; 0x00], 0)).
Proof. repeat split; reflexivity. Qed.

(** C8, amended: two runs with the same arguments, the same files and
    streams, and allocations that succeed or fail alike, on streams
    whose pages are sane and have all their rows, write the same bytes
    to standard output and exit with the same code, whatever the memory
    [malloc] hands out holds; and they do return. *)
Theorem deterministic_output (e1 e2 : env) :
  e_argv e1 = e_argv e2 →
  (∀ path, e_open e1 path = e_open e2 path) →
  (∀ fd, e_raster_open e1 fd = e_raster_open e2 fd) →
  (∀ i, is_Some (heap_at (e_heap e1) i) ↔ is_Some (heap_at (e_heap e2) i)) →
  (∀ fd ras, e_raster_open e1 fd = Some ras →
     Forall (λ p, page_sane (pg_header p) ∧ page_complete p) (ras_pages ras)) →
  observable (main e1) = observable (main e2)
  ∧ ∃ out code, observable (main e1) = Some (out, code).
Proof.
  intros Hargv Hopen Hras Hheap Hpages.
  assert (Hargc : argc e1 = argc e2) by (unfold argc; by rewrite Hargv).
  assert (Hfd : input_fd e1 = input_fd e2).
  { unfold input_fd. by rewrite Hargc, Hargv, Hopen. }
  assert (Harg : argument_error e1 ↔ argument_error e2)
    by (unfold argument_error; by rewrite Hargc).
  assert (Hoe : input_open_error e1 ↔ input_open_error e2)
    by (unfold input_open_error; by rewrite Hargc, Hfd).
  destruct (decide (argument_error e1)) as [Ha|Ha].
  { rewrite !main_usage by tauto. rewrite Hargc, Hargv. eauto. }
  destruct (decide (input_open_error e1)) as [Ho|Ho].
  { rewrite !main_open_error by tauto.
    rewrite !observable_Some, !stdout_of_app, !stdout_of_startup_log.
    eauto. }
  destruct (e_raster_open e1 (input_fd e1)) as [ras|] eqn:Hr.
  - rewrite (observable_main_run e1 ras) by done.
    rewrite (observable_main_run e2 ras)
      by (try tauto; by rewrite <- Hras, <- Hfd).
    rewrite !run_pages_complete by eauto.
    rewrite (run_model_allocations _ _ _ Hheap).
    destruct (run_model (ras_pages ras) (e_heap e2)) as [out code]. eauto.
  - rewrite (main_raster_error e1) by done.
    rewrite (main_raster_error e2).
    2:{ split; [tauto|]. split; [tauto|]. by rewrite <- Hras, <- Hfd. }
    rewrite !observable_Some, !stdout_of_app, !stdout_of_startup_log.
    eauto.
Qed.

(** Scenario 1 on two heaps that hold different bytes. *)
Lemma deterministic_output_witness :
  observable (main (job [gray_page 1 1 10 [0x00]] (fresh_heap 3 0x11)))
  = observable (main (job [gray_page 1 1 10 [0x00]] (fresh_heap 3 0x22)))
  ∧ ∃ out code,
      observable (main (job [gray_page 1 1 10 [0x00]] (fresh_heap 3 0x11)))
      = Some (out, code).
Proof.
  apply (deterministic_output
           (job [gray_page 1 1 10 [0x00]] (fresh_heap 3 0x11))
           (job [gray_page 1 1 10 [0x00]] (fresh_heap 3 0x22))).
  - reflexivity.
  - reflexivity.
  - reflexivity.
  - intros i. do 3 (destruct i as [|i]; [split; intros _; by eexists|]).
    split; intros [g Hg]; discriminate Hg.
  - intros fd ras [= <-]. simpl.
    unfold page_sane, page_complete, page_empty, stride, blen, INT_MAX.
    repeat (apply Forall_cons_2; [simpl; Z.div_mod_to_equations; lia|]).
    apply Forall_nil_2.
Defined.

(** ** C9: truncation of the media type

    C9: for every processed page (sane, not empty, buffers allocated)
    whose header has a nonzero [media_type], the byte in the media-type
    slot of the init frame is [media_type mod 256]; a value of 256 or
    more is not rejected: the page gets its three frames like any
    other. *)
Theorem media_type_truncated hdr ras hp page :
  page_sane hdr → ¬ page_empty hdr → allocated3 hp →
  cupsMediaType hdr ≠ 0 →
  ∃ log ras' hp' data,
    page_body hdr ras hp page = Some (log, Next ras' hp')
    ∧ stdout_of log
      = [0x1B; 0x4E; 0x0D; 0x05; 0x1B; 0x4E; 0x04; 0x0A; 0x1F; 0x11;
         cupsMediaType hdr `mod` 256]
        ++ spec_raster_frame (stride (cupsWidth hdr)) (cupsHeight hdr) data
        ++ spec_footer_frame.
Proof.
  intros Hs Hne Ha Hmt.
  destruct (page_body_frames hdr ras hp page Hs Hne Ha)
    as (log & ras' & data & Hbody & Hout & _).
  exists log, ras', (heap_after 3 hp), data. split; [done|].
  rewrite Hout. unfold media_slot.
  by rewrite bool_decide_eq_true_2.
Qed.

(** Media type 267: the slot holds 267 - 256 = 11. *)
Lemma media_type_truncated_witness :
  page_sane (gray_header 1 1 267) ∧ ¬ page_empty (gray_header 1 1 267)
  ∧ allocated3 (fresh_heap 3 0) ∧ cupsMediaType (gray_header 1 1 267) ≠ 0
  ∧ ∃ log ras' hp' data,
      page_body (gray_header 1 1 267)
                {| ras_pixels := [0x00]; ras_pages := [] |} (fresh_heap 3 0) 1
      = Some (log, Next ras' hp')
      ∧ stdout_of log
        = [0x1B; 0x4E; 0x0D; 0x05; 0x1B; 0x4E; 0x04; 0x0A; 0x1F; 0x11;
           cupsMediaType (gray_header 1 1 267) `mod` 256]
          ++ spec_raster_frame (stride (cupsWidth (gray_header 1 1 267)))
                               (cupsHeight (gray_header 1 1 267)) data
          ++ spec_footer_frame.
Proof.
  assert (H1 : page_sane (gray_header 1 1 267)).
  { unfold page_sane, page_empty, stride, INT_MAX. simpl.
    Z.div_mod_to_equations. lia. }
  assert (H2 : ¬ page_empty (gray_header 1 1 267)).
  { unfold page_empty. simpl. lia. }
  assert (H3 : allocated3 (fresh_heap 3 0)).
  { unfold allocated3. by repeat split; eexists. }
  assert (H4 : cupsMediaType (gray_header 1 1 267) ≠ 0) by (simpl; lia).
  split; [exact H1|]. split; [exact H2|]. split; [exact H3|].
  split; [exact H4|].
  exact (media_type_truncated (gray_header 1 1 267) _ (fresh_heap 3 0) 1
           H1 H2 H3 H4).
Defined.

(** ** C10: allocation failure is atomic per page

    C10: when the pages before page [p] are sane and get their buffers,
    and one of the three allocations of [p] fails, [main] returns 1 and
    standard output holds exactly what the job made of the pages before
    [p] would have written (which exits 0): not a byte of [p]; and that
    output, if there is any, ends with a footer frame followed by the
    flush, after which nothing is written. *)
Theorem allocation_failure_atomic (e : env) ras pre p post :
  ¬ argument_error e → ¬ input_open_error e →
  e_raster_open e (input_fd e) = Some ras →
  ras_pages ras = pre ++ p :: post →
  Forall (λ q, page_sane (pg_header q)) pre →
  ¬ page_empty (pg_header p) →
  (∀ i, (i < 3 * printed pre)%nat → is_Some (heap_at (e_heap e) i)) →
  ¬ allocated3 (heap_after (3 * printed pre) (e_heap e)) →
  ∃ t out,
    main e = Some (t, 1)
    ∧ stdout_of t = out
    ∧ observable (main (with_pages e pre)) = Some (out, 0)
    ∧ flushed t.
Proof.
  intros Ha Ho Hr Hpages Hpre Hne Hheap Hfail.
  destruct (run_pages_prefix pre (p :: post) (e_heap e) 0 Hpre Hheap)
    as (t_pre & page' & Hrun_pre & Hrun & Hfl & _).
  destruct (heap_at_cases (heap_after (3 * printed pre) (e_heap e)))
    as [?|[_ Hnone]]; [done|].
  destruct (page_body_alloc_failure (pg_header p)
              {| ras_pixels := pg_pixels p; ras_pages := [] |}
              (heap_after (3 * printed pre) (e_heap e))
              (wrap_i32 (page' + 1)) Hne Hnone)
    as (s0 & s1 & s2 & b0 & b1 & b2 & Hbody & _).
  rewrite (run_pages_return _ _ _ _ _ _ Hbody) in Hrun.
  rewrite (main_run e ras), Hpages, Hrun by done.
  eexists _, (stdout_of t_pre). split; [reflexivity|]. split; [|split].
  - rewrite !stdout_of_app, stdout_of_startup_log.
    by rewrite app_nil_r.
  - erewrite (observable_main_run (with_pages e pre)); [|done|done|].
    2:{ simpl. change (input_fd (with_pages e pre)) with (input_fd e).
        by rewrite Hr. }
    simpl. rewrite Hrun_pre, observable_Some, stdout_of_app.
    by rewrite app_nil_r.
  - rewrite app_assoc. apply flushed_wrap; [|done|done].
    by rewrite stdout_of_app, stdout_of_startup_log.
Qed.

(** The page of scenario 1 printed, then a page whose second buffer
    cannot be allocated. *)
Lemma allocation_failure_atomic_witness :
  ∃ t out,
    main (job [gray_page 1 1 10 [0x00]; gray_page 8 1 10 [0; 0; 0; 0; 0; 0; 0; 0]]
              (fresh_heap 4 0 ++ [None])) = Some (t, 1)
    ∧ stdout_of t = out
    ∧ observable
        (main (with_pages
                 (job [gray_page 1 1 10 [0x00];
                       gray_page 8 1 10 [0; 0; 0; 0; 0; 0; 0; 0]]
                      (fresh_heap 4 0 ++ [None]))
                 [gray_page 1 1 10 [0x00]]))
      = Some (out, 0)
    ∧ flushed t.
Proof.
  refine (allocation_failure_atomic
            (job [gray_page 1 1 10 [0x00];
                  gray_page 8 1 10 [0; 0; 0; 0; 0; 0; 0; 0]]
                 (fresh_heap 4 0 ++ [None]))
            {| ras_pixels := [];
               ras_pages := [gray_page 1 1 10 [0x00];
                             gray_page 8 1 10 [0; 0; 0; 0; 0; 0; 0; 0]] |}
            [gray_page 1 1 10 [0x00]]
            (gray_page 8 1 10 [0; 0; 0; 0; 0; 0; 0; 0]) [] _ _ _ _ _ _ _ _).
  - unfold argument_error, argc. simpl. lia.
  - unfold input_open_error, argc. simpl. lia.
  - reflexivity.
  - reflexivity.
  - unfold page_sane, page_empty, stride, INT_MAX.
    repeat (apply Forall_cons_2; [simpl; Z.div_mod_to_equations; lia|]).
    apply Forall_nil_2.
  - unfold page_empty. simpl. lia.
  - intros i Hi. vm_compute in Hi.
    do 3 (destruct i as [|i]; [by eexists|]). lia.
  - intros (_ & [g Hg] & _). discriminate Hg.
Defined.

(** * More of the filter *)

(** ** The thresholder, [convert_line_to_1bit] *)

(** X1: on a row of at least [w] samples the thresholder writes the
    first [ceil(w/8)] bytes of the destination and nothing else: the
    bytes after them keep their values, and the bytes written do not
    depend on what the destination held before. *)
Theorem thresholder_frame (r dst dst' : list Z) (w : Z) :
  0 ≤ w ≤ blen r → w + 7 ≤ INT_MAX →
  (w + 7) / 8 ≤ blen dst → (w + 7) / 8 ≤ blen dst' →
  ∃ out,
    blen out = (w + 7) / 8
    ∧ convert_line_to_1bit r dst w
      = Some (out ++ drop (Z.to_nat ((w + 7) / 8)) dst)
    ∧ convert_line_to_1bit r dst' w
      = Some (out ++ drop (Z.to_nat ((w + 7) / 8)) dst').
Proof.
  intros Hw Hmax Hd Hd'. change ((w + 7) `div` 8) with (stride w) in *.
  pose proof (stride_nonneg w) as Hs.
  destruct (drop_split dst (stride w)) as (d & tl & Hdst & Hlen & Htl); [lia|].
  destruct (drop_split dst' (stride w)) as (d' & tl' & Hdst' & Hlen' & Htl');
    [lia|].
  exists (spec_output_row w r).
  split; [apply blen_spec_output_row; lia|].
  rewrite <- Htl, <- Htl'. rewrite Hdst at 1. rewrite Hdst' at 1.
  by rewrite !convert_line_to_1bit_app.
Qed.

(** Nine samples into destinations of three bytes: two bytes are
    written, the third is kept. *)
Lemma thresholder_frame_witness :
  ∃ out,
    blen out = 2
    ∧ convert_line_to_1bit [0; 255; 0; 255; 0; 255; 0; 255; 0] [1; 2; 3] 9
      = Some (out ++ [3])
    ∧ convert_line_to_1bit [0; 255; 0; 255; 0; 255; 0; 255; 0] [4; 5; 6] 9
      = Some (out ++ [6]).
Proof.
  refine (thresholder_frame [0; 255; 0; 255; 0; 255; 0; 255; 0]
            [1; 2; 3] [4; 5; 6] 9 _ _ _ _).
  - unfold blen. simpl. lia.
  - unfold INT_MAX. lia.
  - by vm_compute.
  - by vm_compute.
Defined.

(** X2: a row of fewer than [w] samples makes the thresholder read past
    the end of the row, which is undefined behaviour: it does not check
    the length of its source. *)
Theorem thresholder_overread (r dst : list Z) (w : Z) :
  blen r < w → w + 7 ≤ INT_MAX → (w + 7) / 8 ≤ blen dst →
  convert_line_to_1bit r dst w = None.
Proof. apply convert_line_to_1bit_overread. Qed.

(** One sample where two are asked for. *)
Lemma thresholder_overread_witness :
  convert_line_to_1bit [0] [0] 2 = None.
Proof.
  refine (thresholder_overread [0] [0] 2 _ _ _).
  - unfold blen. simpl. lia.
  - unfold INT_MAX. lia.
  - by vm_compute.
Defined.

(** X3: the output of the thresholder depends on the first [w] samples
    only through which of them are below 128: two rows that agree on
    that give the same bytes, whatever the samples and whatever the
    destinations held. *)
Theorem thresholder_binarises (r r' dst dst' : list Z) (w : Z) :
  0 ≤ w ≤ blen r → w ≤ blen r' → w + 7 ≤ INT_MAX →
  blen dst = (w + 7) / 8 → blen dst' = (w + 7) / 8 →
  (∀ (x : nat) s s', Z.of_nat x < w → r !! x = Some s → r' !! x = Some s' →
                     (s < 128 ↔ s' < 128)) →
  ∃ out, convert_line_to_1bit r dst w = Some out
         ∧ convert_line_to_1bit r' dst' w = Some out.
Proof.
  intros Hw Hw' Hmax Hd Hd' Hsame.
  exists (spec_output_row w r).
  rewrite !convert_line_to_1bit_spec by (done || lia).
  split; [done|]. f_equal. symmetry. apply spec_output_row_ext.
  intros x Hx. unfold spec_burn. f_equal.
  destruct (lookup_lt_is_Some_2 r (Z.to_nat x)) as [s Hs];
    [unfold blen in Hw; lia|].
  destruct (lookup_lt_is_Some_2 r' (Z.to_nat x)) as [s' Hs'];
    [unfold blen in Hw'; lia|].
  rewrite Hs, Hs'. simpl. apply bool_decide_ext.
  apply (Hsame (Z.to_nat x)); [lia|done..].
Qed.

(** Black and white against two grays, and a third sample that is not
    part of the row. *)
Lemma thresholder_binarises_witness :
  ∃ out, convert_line_to_1bit [0; 255; 7] [0] 2 = Some out
         ∧ convert_line_to_1bit [127; 128; 200] [9] 2 = Some out.
Proof.
  refine (thresholder_binarises [0; 255; 7] [127; 128; 200] [0] [9] 2
            _ _ _ _ _ _).
  - unfold blen. simpl. lia.
  - unfold blen. simpl. lia.
  - unfold INT_MAX. lia.
  - reflexivity.
  - reflexivity.
  - intros x s s' Hx Hs Hs'.
    destruct x as [|[|x]]; [| |lia]; simpl in Hs, Hs';
      injection Hs as <-; injection Hs' as <-; lia.
Defined.

(** X4: a row whose first [w] samples are all 128 or more gives
    [ceil(w/8)] zero bytes; a row whose first [w] samples are all below
    128 gives [w/8] bytes 0xFF when [w] is a multiple of 8. *)
Theorem thresholder_uniform_rows (r dst : list Z) (w : Z) :
  0 ≤ w ≤ blen r → w + 7 ≤ INT_MAX → blen dst = (w + 7) / 8 →
  ((∀ (x : nat) s, Z.of_nat x < w → r !! x = Some s → 128 ≤ s) →
   convert_line_to_1bit r dst w = Some (replicate (Z.to_nat ((w + 7) / 8)) 0))
  ∧ ((∀ (x : nat) s, Z.of_nat x < w → r !! x = Some s → s < 128) →
     w `mod` 8 = 0 →
     convert_line_to_1bit r dst w
     = Some (replicate (Z.to_nat (w / 8)) 255)).
Proof.
  intros Hw Hmax Hd. rewrite convert_line_to_1bit_spec by done.
  pose proof (stride_nonneg w) as Hs. unfold stride in Hs.
  split.
  - intros Hlight. f_equal. unfold spec_output_row, stride.
    apply (list_eq_same_length _ _ (Z.to_nat ((w + 7) `div` 8))).
    + by rewrite length_replicate.
    + by rewrite length_fmap, length_seq.
    + intros i a b Hi Ha Hb. apply lookup_replicate in Hb as [-> _].
      rewrite list_lookup_fmap, lookup_seq_lt in Ha by done.
      injection Ha as <-. apply spec_output_byte_light.
      intros k Hk. unfold spec_burn.
      destruct (decide (0 ≤ 8 * Z.of_nat i + k < w)) as [Hx|Hx];
        [|by rewrite bool_decide_eq_false_2].
      destruct (lookup_lt_is_Some_2 r (Z.to_nat (8 * Z.of_nat i + k)))
        as [s Hs']; [unfold blen in Hw; lia|].
      rewrite Hs'. simpl.
      rewrite (bool_decide_eq_false_2 (s < 128)), andb_false_r; [done|].
      specialize (Hlight (Z.to_nat (8 * Z.of_nat i + k)) s ltac:(lia) Hs'). lia.
  - intros Hdark Hmod. f_equal. unfold spec_output_row, stride.
    assert (Hq : (w + 7) `div` 8 = w `div` 8)
      by (Z.div_mod_to_equations; lia).
    rewrite Hq.
    apply (list_eq_same_length _ _ (Z.to_nat (w `div` 8))).
    + by rewrite length_replicate.
    + by rewrite length_fmap, length_seq.
    + intros i a b Hi Ha Hb. apply lookup_replicate in Hb as [-> _].
      rewrite list_lookup_fmap, lookup_seq_lt in Ha by done.
      injection Ha as <-. apply spec_output_byte_dark.
      intros k Hk. unfold spec_burn.
      assert (Hx : 0 ≤ 8 * Z.of_nat i + k < w)
        by (Z.div_mod_to_equations; lia).
      rewrite bool_decide_eq_true_2 by done.
      destruct (lookup_lt_is_Some_2 r (Z.to_nat (8 * Z.of_nat i + k)))
        as [s Hs']; [unfold blen in Hw; lia|].
      rewrite Hs'. simpl. apply bool_decide_eq_true_2.
      apply (Hdark (Z.to_nat (8 * Z.of_nat i + k)) s ltac:(lia) Hs').
Qed.

(** Three light samples; eight dark ones. *)
Lemma thresholder_uniform_rows_witness :
  convert_line_to_1bit [255; 200; 128] [7] 3 = Some [0]
  ∧ convert_line_to_1bit [0; 1; 2; 3; 100; 126; 127; 5] [7] 8 = Some [255].
Proof.
  split.
  - refine (proj1 (thresholder_uniform_rows [255; 200; 128] [7] 3 _ _ _) _).
    + unfold blen. simpl. lia.
    + unfold INT_MAX. lia.
    + reflexivity.
    + intros x s Hx Hs.
      destruct x as [|[|[|x]]]; [| | |lia]; simpl in Hs;
        injection Hs as <-; lia.
  - refine (proj2 (thresholder_uniform_rows [0; 1; 2; 3; 100; 126; 127; 5]
                     [7] 8 _ _ _) _ _).
    + unfold blen. simpl. lia.
    + unfold INT_MAX. lia.
    + reflexivity.
    + intros x s Hx Hs.
      do 8 (destruct x as [|x]; [simpl in Hs; injection Hs as <-; lia|]).
      lia.
    + reflexivity.
Defined.

(** ** The raster frame, [send_raster] *)

(** X5: [send_raster] writes the command 1D 76 30 00, then two bytes
    for the stride [ceil(width/8)] and two for the height, low byte
    first, then the first [stride * height] bytes of the buffer. Each
    two-byte field holds its value modulo 65536: the value itself below
    65536, a wrapped one from there on, while the payload keeps its full
    length. *)
Theorem send_raster_fields (data : list Z) (width height : Z) :
  0 ≤ width → width + 7 ≤ INT_MAX → 0 ≤ height →
  (width + 7) / 8 * height ≤ INT_MAX →
  (width + 7) / 8 * height ≤ blen data →
  ∃ a b c d,
    send_raster data width height
    = Some [EStdout [0x1D; 0x76; 0x30; 0x00]; EStdout [a; b]; EStdout [c; d];
            EStdout (take (Z.to_nat ((width + 7) / 8 * height)) data)]
    ∧ (0 ≤ a < 256 ∧ 0 ≤ b < 256 ∧ 0 ≤ c < 256 ∧ 0 ≤ d < 256)
    ∧ a + 256 * b = ((width + 7) / 8) `mod` 65536
    ∧ c + 256 * d = height `mod` 65536
    ∧ ((width + 7) / 8 < 65536 → a + 256 * b = (width + 7) / 8)
    ∧ (height < 65536 → c + 256 * d = height).
Proof.
  intros Hw Hmax Hh Hmul Hdata.
  change ((width + 7) `div` 8) with (stride width) in *.
  pose proof (stride_nonneg width Hw) as Hs.
  destruct (le16_value (stride width)) as (a & b & Hab & Ha & Hb & Hva).
  destruct (le16_value height) as (c & d & Hcd & Hc & Hd & Hvc).
  exists a, b, c, d. split; [|split; [done|split; [done|split; [done|]]]].
  - unfold send_raster.
    rewrite (wrap_i32_id (width + 7)) by (unfold INT_MAX in *; lia).
    rewrite Z.quot_div_nonneg by lia. fold (stride width).
    rewrite wrap_i32_id by (unfold INT_MAX in *; nia).
    unfold fwrite. rewrite bool_decide_eq_true_2 by nia. simpl.
    rewrite !to_uchar_land, !shiftr_8.
    unfold le16 in Hab, Hcd. injection Hab as <- <-. injection Hcd as <- <-.
    done.
  - split; intros Hlt; [rewrite Hva|rewrite Hvc]; apply Z.mod_small; lia.
Qed.

(** A buffer of three bytes sent as a page 12 wide and 1 high. *)
Lemma send_raster_fields_witness :
  ∃ a b c d,
    send_raster [0xAA; 0xB0; 0xCC] 12 1
    = Some [EStdout [0x1D; 0x76; 0x30; 0x00]; EStdout [a; b]; EStdout [c; d];
            EStdout [0xAA; 0xB0]]
    ∧ (0 ≤ a < 256 ∧ 0 ≤ b < 256 ∧ 0 ≤ c < 256 ∧ 0 ≤ d < 256)
    ∧ a + 256 * b = 2
    ∧ c + 256 * d = 1
    ∧ (2 < 65536 → a + 256 * b = 2)
    ∧ (1 < 65536 → c + 256 * d = 1).
Proof.
  refine (send_raster_fields [0xAA; 0xB0; 0xCC] 12 1 _ _ _ _ _).
  - lia.
  - unfold INT_MAX. lia.
  - lia.
  - by vm_compute.
  - by vm_compute.
Defined.

(** ** One page, from [main]'s loop body *)

(** X6: for a page that is sane, not empty, whose three buffers are
    allocated and all of whose rows are in the stream, the sample at
    column [x] of row [y] (at [y * cupsBytesPerLine + x] in the stream)
    decides one bit of standard output: bit [7 - x mod 8] of the byte at
    offset [19 + y * ceil(width/8) + x / 8] of the page's output, which
    is set exactly when the sample is below 128. *)
Theorem pixel_to_output_bit hdr ras hp page :
  page_sane hdr → ¬ page_empty hdr → allocated3 hp →
  cupsBytesPerLine hdr * cupsHeight hdr ≤ blen (ras_pixels ras) →
  ∃ log ras' hp',
    page_body hdr ras hp page = Some (log, Next ras' hp')
    ∧ ∀ x y, 0 ≤ x < cupsWidth hdr → 0 ≤ y < cupsHeight hdr →
        ∃ s b,
          ras_pixels ras !! Z.to_nat (y * cupsBytesPerLine hdr + x) = Some s
          ∧ stdout_of log
              !! Z.to_nat (19 + y * ((cupsWidth hdr + 7) / 8) + x / 8)
            = Some b
          ∧ (Z.testbit b (7 - x `mod` 8) = true ↔ s < 128).
Proof.
  intros Hs Hne (H0 & H1 & H2) Hfull.
  pose proof (page_sane_printable hdr Hs Hne) as Hp.
  destruct (page_body_printable hdr ras hp page Hp H0 H1 H2)
    as (l & y0 & data & ras' & Hbody & Hl & Hdata & _ & Hcomplete).
  destruct (Hcomplete Hfull) as (_ & -> & _).
  exists (page_trace hdr page l y0
            (spec_bitmap (cupsWidth hdr) (cupsBytesPerLine hdr)
               (ras_pixels ras) (Z.to_nat (cupsHeight hdr)))),
    ras', (heap_after 3 hp).
  split; [done|]. intros x y Hx Hy.
  destruct Hp as (Hw & Hh & Hbpl & Hmax & Hmul).
  change ((cupsWidth hdr + 7) `div` 8) with (stride (cupsWidth hdr)).
  pose proof (stride_pos _ Hw) as Hwb.
  assert (Hq : 0 ≤ x `div` 8 < stride (cupsWidth hdr))
    by (unfold stride; Z.div_mod_to_equations; lia).
  assert (Hm : 0 ≤ x `mod` 8 < 8) by (apply Z.mod_pos_bound; lia).
  assert (Hdm : x = 8 * (x `div` 8) + x `mod` 8) by (apply Z.div_mod; lia).
  destruct (lookup_lt_is_Some_2 (ras_pixels ras)
              (Z.to_nat (y * cupsBytesPerLine hdr + x))) as [s Hpx].
  { unfold blen in Hfull. nia. }
  exists s, (spec_output_byte (cupsWidth hdr)
               (input_row (cupsBytesPerLine hdr) (ras_pixels ras) (Z.to_nat y))
               (x `div` 8)).
  split; [done|]. split.
  - rewrite stdout_of_page_trace by done.
    unfold spec_raster_frame, le16.
    replace (Z.to_nat (19 + y * stride (cupsWidth hdr) + x `div` 8))
      with (19 + (Z.to_nat y * Z.to_nat (stride (cupsWidth hdr))
                  + Z.to_nat (x `div` 8)))%nat by nia.
    cbn [app]. rewrite !lookup_cons_ne_0 by lia. simpl.
    rewrite lookup_app_l.
    2:{ pose proof (blen_spec_bitmap (cupsWidth hdr) (cupsBytesPerLine hdr)
                      (ras_pixels ras) (Z.to_nat (cupsHeight hdr))) as Hb.
        unfold blen in Hb. nia. }
    rewrite spec_bitmap_lookup by lia. by rewrite Z2Nat.id by lia.
  - rewrite testbit_spec_output_byte by lia.
    rewrite bool_decide_eq_true_2 by lia. simpl.
    replace (8 * x `div` 8 + (7 - (7 - x `mod` 8))) with x by lia.
    unfold spec_burn. rewrite bool_decide_eq_true_2 by lia. simpl.
    rewrite input_row_lookup by lia.
    replace (Z.to_nat y * Z.to_nat (cupsBytesPerLine hdr) + Z.to_nat x)%nat
      with (Z.to_nat (y * cupsBytesPerLine hdr + x)) by nia.
    rewrite Hpx. simpl. by rewrite bool_decide_eq_true.
Qed.

(** A page 9 wide and 2 high with a padded row of 10 samples. *)
Lemma pixel_to_output_bit_witness :
  ∃ log ras' hp',
    page_body
      {| cupsWidth := 9; cupsHeight := 2; cupsBitsPerPixel := 8;
         cupsColorSpace := 18; cupsBytesPerLine := 10; cupsMediaType := 10 |}
      {| ras_pixels := [0; 255; 0; 255; 0; 255; 0; 255; 0; 255;
                        255; 0; 255; 0; 255; 0; 255; 0; 255; 0];
         ras_pages := [] |}
      (fresh_heap 3 0) 1
    = Some (log, Next ras' hp')
    ∧ ∀ x y, 0 ≤ x < 9 → 0 ≤ y < 2 →
        ∃ s b,
          [0; 255; 0; 255; 0; 255; 0; 255; 0; 255;
           255; 0; 255; 0; 255; 0; 255; 0; 255; 0]
            !! Z.to_nat (y * 10 + x) = Some s
          ∧ stdout_of log !! Z.to_nat (19 + y * 2 + x / 8) = Some b
          ∧ (Z.testbit b (7 - x `mod` 8) = true ↔ s < 128).
Proof.
  refine (pixel_to_output_bit
            {| cupsWidth := 9; cupsHeight := 2; cupsBitsPerPixel := 8;
               cupsColorSpace := 18; cupsBytesPerLine := 10;
               cupsMediaType := 10 |}
            {| ras_pixels := [0; 255; 0; 255; 0; 255; 0; 255; 0; 255;
                              255; 0; 255; 0; 255; 0; 255; 0; 255; 0];
               ras_pages := [] |}
            (fresh_heap 3 0) 1 _ _ _ _).
  - unfold page_sane, page_empty, stride, INT_MAX. simpl.
    Z.div_mod_to_equations. lia.
  - unfold page_empty. simpl. lia.
  - repeat split; by eexists.
  - unfold blen. simpl. lia.
Defined.

(** ** Whole runs of [main] *)

(** X7: when the arguments are well-formed, the stream opens, every page
    is sane and the page buffers are allocated, [main] returns 0 and
    writes exactly 27 + ceil(width/8) * height bytes for every page that
    is not empty, whether or not all the rows of the page could be
    read. *)
Theorem output_size (e : env) ras :
  ¬ argument_error e → ¬ input_open_error e →
  e_raster_open e (input_fd e) = Some ras →
  Forall (λ p, page_sane (pg_header p)) (ras_pages ras) →
  (∀ i, (i < 3 * printed (ras_pages ras))%nat →
        is_Some (heap_at (e_heap e) i)) →
  ∃ t, main e = Some (t, 0)
       ∧ blen (stdout_of t) = job_size (ras_pages ras).
Proof.
  intros Ha Ho Hr Hs Hheap.
  destruct (main_accounting e ras Ha Ho Hr Hs Hheap) as (t & Hmain & Hsz & _).
  by exists t.
Qed.

(** An empty page, then a page 8 wide and 2 high of which only the
    first row is in the stream: 29 bytes. *)
Lemma output_size_witness :
  ∃ t, main (job [gray_page 0 5 10 [];
                  gray_page 8 2 10 [0; 0; 0; 0; 0; 0; 0; 0]]
                 (fresh_heap 3 0)) = Some (t, 0)
       ∧ blen (stdout_of t) = 29.
Proof.
  refine (output_size
            (job [gray_page 0 5 10 [];
                  gray_page 8 2 10 [0; 0; 0; 0; 0; 0; 0; 0]]
                 (fresh_heap 3 0))
            {| ras_pixels := [];
               ras_pages := [gray_page 0 5 10 [];
                             gray_page 8 2 10 [0; 0; 0; 0; 0; 0; 0; 0]] |}
            _ _ _ _ _).
  - unfold argument_error, argc. simpl. lia.
  - unfold input_open_error, argc. simpl. lia.
  - reflexivity.
  - unfold page_sane, page_empty, stride, INT_MAX.
    repeat (apply Forall_cons_2; [simpl; Z.div_mod_to_equations; lia|]).
    apply Forall_nil_2.
  - intros i Hi. vm_compute in Hi.
    do 3 (destruct i as [|i]; [by eexists|]). lia.
Defined.

(** X8: in such a run [main] calls [malloc] three times and [free]
    three times for every page that is not empty, flushes standard
    output once per such page, and closes the raster stream once. *)
Theorem resources_balanced (e : env) ras :
  ¬ argument_error e → ¬ input_open_error e →
  e_raster_open e (input_fd e) = Some ras →
  Forall (λ p, page_sane (pg_header p)) (ras_pages ras) →
  (∀ i, (i < 3 * printed (ras_pages ras))%nat →
        is_Some (heap_at (e_heap e) i)) →
  ∃ t, main e = Some (t, 0)
       ∧ count_events is_malloc t = (3 * printed (ras_pages ras))%nat
       ∧ count_events is_free t = (3 * printed (ras_pages ras))%nat
       ∧ count_events is_flush t = printed (ras_pages ras)
       ∧ count_events is_close t = 1%nat.
Proof.
  intros Ha Ho Hr Hs Hheap.
  destruct (main_accounting e ras Ha Ho Hr Hs Hheap)
    as (t & Hmain & _ & Hrest).
  by exists t.
Qed.

(** Two pages and an empty one between them. *)
Lemma resources_balanced_witness :
  ∃ t, main (job [gray_page 1 1 10 [0x00]; gray_page 4 0 10 [];
                  gray_page 1 1 10 [0xFF]]
                 (fresh_heap 6 0)) = Some (t, 0)
       ∧ count_events is_malloc t = 6%nat
       ∧ count_events is_free t = 6%nat
       ∧ count_events is_flush t = 2%nat
       ∧ count_events is_close t = 1%nat.
Proof.
  refine (resources_balanced
            (job [gray_page 1 1 10 [0x00]; gray_page 4 0 10 [];
                  gray_page 1 1 10 [0xFF]]
                 (fresh_heap 6 0))
            {| ras_pixels := [];
               ras_pages := [gray_page 1 1 10 [0x00]; gray_page 4 0 10 [];
                             gray_page 1 1 10 [0xFF]] |}
            _ _ _ _ _).
  - unfold argument_error, argc. simpl. lia.
  - unfold input_open_error, argc. simpl. lia.
  - reflexivity.
  - unfold page_sane, page_empty, stride, INT_MAX.
    repeat (apply Forall_cons_2; [simpl; Z.div_mod_to_equations; lia|]).
    apply Forall_nil_2.
  - intros i Hi. vm_compute in Hi.
    do 6 (destruct i as [|i]; [by eexists|]). lia.
Defined.

(** X9: when one of the three allocations of a page fails, after pages
    that are sane and got their buffers, [main] returns 1 straight after
    the message on standard error: it has called [malloc] three times
    for the page and [free] for none of its buffers, and it never closes
    the raster stream; standard output holds the bytes of the pages
    before, each flushed. *)
Theorem allocation_failure_leaks (e : env) ras pre p rest :
  ¬ argument_error e → ¬ input_open_error e →
  e_raster_open e (input_fd e) = Some ras →
  ras_pages ras = pre ++ p :: rest →
  Forall (λ q, page_sane (pg_header q)) pre →
  (∀ i, (i < 3 * printed pre)%nat → is_Some (heap_at (e_heap e) i)) →
  ¬ page_empty (pg_header p) →
  ¬ allocated3 (heap_after (3 * printed pre) (e_heap e)) →
  ∃ t,
    main e = Some (t, 1)
    ∧ last t = Some (EStderr ErrAlloc)
    ∧ blen (stdout_of t) = job_size pre
    ∧ count_events is_malloc t = (3 * printed pre + 3)%nat
    ∧ count_events is_free t = (3 * printed pre)%nat
    ∧ count_events is_flush t = printed pre
    ∧ count_events is_close t = 0%nat.
Proof. apply main_alloc_failure. Qed.

(** The page of scenario 1 printed, then a page whose third buffer
    cannot be allocated while its first two can. *)
Lemma allocation_failure_leaks_witness :
  ∃ t,
    main (job [gray_page 1 1 10 [0x00]; gray_page 1 1 10 [0xFF]]
              (fresh_heap 5 0 ++ [None])) = Some (t, 1)
    ∧ last t = Some (EStderr ErrAlloc)
    ∧ blen (stdout_of t) = 28
    ∧ count_events is_malloc t = 6%nat
    ∧ count_events is_free t = 3%nat
    ∧ count_events is_flush t = 1%nat
    ∧ count_events is_close t = 0%nat.
Proof.
  refine (allocation_failure_leaks
            (job [gray_page 1 1 10 [0x00]; gray_page 1 1 10 [0xFF]]
                 (fresh_heap 5 0 ++ [None]))
            {| ras_pixels := [];
               ras_pages := [gray_page 1 1 10 [0x00];
                             gray_page 1 1 10 [0xFF]] |}
            [gray_page 1 1 10 [0x00]] (gray_page 1 1 10 [0xFF]) []
            _ _ _ _ _ _ _ _).
  - unfold argument_error, argc. simpl. lia.
  - unfold input_open_error, argc. simpl. lia.
  - reflexivity.
  - reflexivity.
  - unfold page_sane, page_empty, stride, INT_MAX.
    repeat (apply Forall_cons_2; [simpl; Z.div_mod_to_equations; lia|]).
    apply Forall_nil_2.
  - intros i Hi. vm_compute in Hi.
    do 3 (destruct i as [|i]; [by eexists|]). lia.
  - unfold page_empty. simpl. lia.
  - intros (_ & _ & [g Hg]). discriminate Hg.
Defined.

(** X10: in a run on sane pages whose buffers are allocated, a page all
    of whose rows are in the stream is written in full, as its init
    frame, raster frame and footer frame, at the offset given by the
    sizes of the pages before it, whether or not the rows of the other
    pages could all be read. *)
Theorem complete_page_rendered (e : env) ras pre p rest :
  ¬ argument_error e → ¬ input_open_error e →
  e_raster_open e (input_fd e) = Some ras →
  ras_pages ras = pre ++ p :: rest →
  Forall (λ q, page_sane (pg_header q)) (ras_pages ras) →
  page_complete p →
  (∀ i, (i < 3 * printed (ras_pages ras))%nat →
        is_Some (heap_at (e_heap e) i)) →
  ∃ t out_pre out_post,
    main e = Some (t, 0)
    ∧ stdout_of t = out_pre ++ page_bytes p ++ out_post
    ∧ blen out_pre = job_size pre
    ∧ blen out_post = job_size rest.
Proof. apply main_page_at. Qed.

(** A page of two rows with one row in the stream, then the page of
    scenario 1. *)
Lemma complete_page_rendered_witness :
  ∃ t out_pre out_post,
    main (job [gray_page 1 2 10 [0x00]; gray_page 1 1 10 [0x00]]
              (fresh_heap 6 0)) = Some (t, 0)
    ∧ stdout_of t = out_pre ++ scenario1_bytes ++ out_post
    ∧ blen out_pre = 29
    ∧ blen out_post = 0.
Proof.
  refine (complete_page_rendered
            (job [gray_page 1 2 10 [0x00]; gray_page 1 1 10 [0x00]]
                 (fresh_heap 6 0))
            {| ras_pixels := [];
               ras_pages := [gray_page 1 2 10 [0x00];
                             gray_page 1 1 10 [0x00]] |}
            [gray_page 1 2 10 [0x00]] (gray_page 1 1 10 [0x00]) []
            _ _ _ _ _ _ _).
  - unfold argument_error, argc. simpl. lia.
  - unfold input_open_error, argc. simpl. lia.
  - reflexivity.
  - reflexivity.
  - unfold page_sane, page_empty, stride, INT_MAX.
    repeat (apply Forall_cons_2; [simpl; Z.div_mod_to_equations; lia|]).
    apply Forall_nil_2.
  - unfold page_complete, blen. simpl. lia.
  - intros i Hi. vm_compute in Hi.
    do 6 (destruct i as [|i]; [by eexists|]). lia.
Defined.

(** X11: in such a run the last thing [main] does is report on standard
    error the number of pages it processed, which is the number of page
    headers in the stream, empty pages included. *)
Theorem completion_counts_pages (e : env) ras :
  ¬ argument_error e → ¬ input_open_error e →
  e_raster_open e (input_fd e) = Some ras →
  Forall (λ p, page_sane (pg_header p)) (ras_pages ras) →
  (∀ i, (i < 3 * printed (ras_pages ras))%nat →
        is_Some (heap_at (e_heap e) i)) →
  Z.of_nat (length (ras_pages ras)) ≤ INT_MAX →
  ∃ t,
    main e = Some (t, 0)
    ∧ last t = Some (EStderr
                       (DbgComplete (Z.of_nat (length (ras_pages ras))))).
Proof. apply main_last. Qed.

(** An empty page and the page of scenario 1: two pages processed. *)
Lemma completion_counts_pages_witness :
  ∃ t,
    main (job [gray_page 0 0 10 []; gray_page 1 1 10 [0x00]]
              (fresh_heap 3 0)) = Some (t, 0)
    ∧ last t = Some (EStderr (DbgComplete 2)).
Proof.
  refine (completion_counts_pages
            (job [gray_page 0 0 10 []; gray_page 1 1 10 [0x00]]
                 (fresh_heap 3 0))
            {| ras_pixels := [];
               ras_pages := [gray_page 0 0 10 [];
                             gray_page 1 1 10 [0x00]] |}
            _ _ _ _ _ _).
  - unfold argument_error, argc. simpl. lia.
  - unfold input_open_error, argc. simpl. lia.
  - reflexivity.
  - unfold page_sane, page_empty, stride, INT_MAX.
    repeat (apply Forall_cons_2; [simpl; Z.div_mod_to_equations; lia|]).
    apply Forall_nil_2.
  - intros i Hi. vm_compute in Hi.
    do 3 (destruct i as [|i]; [by eexists|]). lia.
  - unfold INT_MAX. simpl. lia.
Defined.

(** ** Pages the filter cannot handle *)

(** X12: [main] thresholds [cupsWidth] samples of every row it read
    without looking at [cupsBitsPerPixel] or [cupsBytesPerLine]: on a
    page whose rows have fewer than [cupsWidth] bytes, as those of a
    1-bit raster have, it reads past the end of its row buffer in the
    first row, which is undefined behaviour. *)
Theorem short_stride_overread (e : env) ras pre p rest :
  ¬ argument_error e → ¬ input_open_error e →
  e_raster_open e (input_fd e) = Some ras →
  ras_pages ras = pre ++ p :: rest →
  Forall (λ q, page_sane (pg_header q)) pre →
  (∀ i, (i < 3 * printed pre)%nat → is_Some (heap_at (e_heap e) i)) →
  allocated3 (heap_after (3 * printed pre) (e_heap e)) →
  0 < cupsWidth (pg_header p) → cupsWidth (pg_header p) + 7 ≤ INT_MAX →
  0 < cupsHeight (pg_header p) →
  0 < cupsBytesPerLine (pg_header p) < cupsWidth (pg_header p) →
  cupsBytesPerLine (pg_header p) ≤ blen (pg_pixels p) →
  main e = None.
Proof.
  intros Ha Ho Hr Hpages Hs Hheap Hal Hw Hmax Hh Hbpl Hpx.
  apply (main_page_undefined e ras pre p rest); try done.
  intros page. by apply page_body_short_stride.
Qed.

(** A 1-bit page 16 wide: two bytes a row. *)
Lemma short_stride_overread_witness :
  main (job [{| pg_header :=
                  {| cupsWidth := 16; cupsHeight := 1; cupsBitsPerPixel := 1;
                     cupsColorSpace := 3; cupsBytesPerLine := 2;
                     cupsMediaType := 10 |};
                pg_pixels := [0xF0; 0x0F] |}]
            (fresh_heap 3 0)) = None.
Proof.
  refine (short_stride_overread
            (job [{| pg_header :=
                       {| cupsWidth := 16; cupsHeight := 1;
                          cupsBitsPerPixel := 1; cupsColorSpace := 3;
                          cupsBytesPerLine := 2; cupsMediaType := 10 |};
                     pg_pixels := [0xF0; 0x0F] |}]
                 (fresh_heap 3 0))
            {| ras_pixels := [];
               ras_pages :=
                 [{| pg_header :=
                       {| cupsWidth := 16; cupsHeight := 1;
                          cupsBitsPerPixel := 1; cupsColorSpace := 3;
                          cupsBytesPerLine := 2; cupsMediaType := 10 |};
                     pg_pixels := [0xF0; 0x0F] |}] |}
            [] _ [] _ _ _ _ _ _ _ _ _ _ _ _).
  - unfold argument_error, argc. simpl. lia.
  - unfold input_open_error, argc. simpl. lia.
  - reflexivity.
  - reflexivity.
  - apply Forall_nil_2.
  - intros i Hi. simpl in Hi. lia.
  - repeat split; by eexists.
  - simpl. lia.
  - unfold INT_MAX. simpl. lia.
  - simpl. lia.
  - simpl. lia.
  - unfold blen. simpl. lia.
Defined.

(** X13: [main] sizes the page buffer with the product
    [width_bytes * cupsHeight] taken modulo 2^32: when the product wraps
    to less than one row, the copy of the first row into the page buffer
    writes past its end, which is undefined behaviour. *)
Theorem page_buffer_overflow (e : env) ras pre p rest :
  ¬ argument_error e → ¬ input_open_error e →
  e_raster_open e (input_fd e) = Some ras →
  ras_pages ras = pre ++ p :: rest →
  Forall (λ q, page_sane (pg_header q)) pre →
  (∀ i, (i < 3 * printed pre)%nat → is_Some (heap_at (e_heap e) i)) →
  allocated3 (heap_after (3 * printed pre) (e_heap e)) →
  0 < cupsWidth (pg_header p) → cupsWidth (pg_header p) + 7 ≤ INT_MAX →
  0 < cupsHeight (pg_header p) →
  cupsWidth (pg_header p) ≤ cupsBytesPerLine (pg_header p) →
  cupsBytesPerLine (pg_header p) ≤ blen (pg_pixels p) →
  wrap_u32 (stride (cupsWidth (pg_header p)) * cupsHeight (pg_header p))
  < stride (cupsWidth (pg_header p)) →
  main e = None.
Proof.
  intros Ha Ho Hr Hpages Hs Hheap Hal Hw Hmax Hh Hbpl Hpx Hwrap.
  apply (main_page_undefined e ras pre p rest); try done.
  intros page. by apply page_body_buffer_overflow.
Qed.

(** A page 16 wide and 2^31 high: 2 * 2^31 bytes wrap to none. *)
Lemma page_buffer_overflow_witness :
  main (job [gray_page 16 2147483648 10
               [0; 0; 0; 0; 0; 0; 0; 0; 0; 0; 0; 0; 0; 0; 0; 0]]
            (fresh_heap 3 0)) = None.
Proof.
  refine (page_buffer_overflow
            (job [gray_page 16 2147483648 10
                    [0; 0; 0; 0; 0; 0; 0; 0; 0; 0; 0; 0; 0; 0; 0; 0]]
                 (fresh_heap 3 0))
            {| ras_pixels := [];
               ras_pages :=
                 [gray_page 16 2147483648 10
                    [0; 0; 0; 0; 0; 0; 0; 0; 0; 0; 0; 0; 0; 0; 0; 0]] |}
            [] _ [] _ _ _ _ _ _ _ _ _ _ _ _ _).
  - unfold argument_error, argc. simpl. lia.
  - unfold input_open_error, argc. simpl. lia.
  - reflexivity.
  - reflexivity.
  - apply Forall_nil_2.
  - intros i Hi. simpl in Hi. lia.
  - repeat split; by eexists.
  - simpl. lia.
  - unfold INT_MAX. simpl. lia.
  - simpl. lia.
  - simpl. lia.
  - unfold blen. simpl. lia.
  - by vm_compute.
Defined.
